(** * Encryption and compression builtins of the expression package

    A shallow embedding of [expression/builtin_encryption.go] and the
    properties of its row evaluators: NULL propagation, the framing of
    compressed payloads, the corrupted-payload rules, the digest selection of
    SHA2, the range check of RANDOM_BYTES, PASSWORD and the AES round trip.

    Go values are embedded as follows.  A [string] and a [[]byte] are lists of
    bytes; [int], [int64] and [uint32] are integers of [Z] whose conversions
    are written out; an [error] is an [option], [None] being [nil]; a run-time
    panic is an outcome of its own.  What the evaluators call from the Go
    standard library (compress/zlib, the hash packages, crypto/rand,
    crypto/aes) is an interface whose implementation is a parameter. *)

From Stdlib Require Import String.
From Stdlib Require Import ZArith Lia List Bool.
From Stdlib Require Import Strings.Byte.
Import ListNotations.

Local Open Scope Z_scope.
Local Open Scope list_scope.
Local Open Scope bool_scope.

Set Implicit Arguments.

(** ** Bytes, strings and integer conversions *)

(** A Go [string]: its bytes. *)
Definition gostring : Type := list byte.

(** [len(x)] of a string or a slice. *)
Definition len {A : Type} (l : list A) : Z := Z.of_nat (length l).

(** The numeric value of a byte. *)
Definition byte_val (b : byte) : Z := Z.of_N (Byte.to_N b).

(** The conversion [byte(z)]: the low eight bits. *)
Definition to_byte (z : Z) : byte :=
  match Byte.of_N (Z.to_N (z mod 256)) with
  | Some b => b
  | None => x00
  end.

(** The conversion [uint32(z)]. *)
Definition uint32 (z : Z) : Z := z mod 2 ^ 32.

(** The conversion [int(z)] of an [int64]: [int] is 64 bits wide on the
    platforms the repository is built for, so the value wraps at 64 bits. *)
Definition int (z : Z) : Z := (z + 2 ^ 63) mod 2 ^ 64 - 2 ^ 63.

(** The values of an [int64]. *)
Definition int64_range (z : Z) : Prop := - 2 ^ 63 <= z < 2 ^ 63.

(** [make([]byte, n)]. *)
Definition make_bytes (n : Z) : list byte := repeat x00 (Z.to_nat n).

(** ** Errors *)

(** The errors this file names, an error raised by code outside it, and the
    annotation [errors.Trace] puts around an error. *)
Inductive error : Type :=
| errZlibZData
| errDeprecatedSyntaxNoReplacement (name : string)
| ErrOverflow (kind place : string)
| errors_New (msg : string)
| External (msg : string)
| Traced (e : error).

(** [err != nil]. *)
Definition notnil (err : option error) : bool :=
  match err with Some _ => true | None => false end.

(** Modelled from the spec: [errors.Trace] (juju/errors) is not in this file;
    an evaluation error is "forwarded": [nil] stays [nil], an error comes back
    annotated with the place it passed through. *)
Definition Trace (err : option error) : option error :=
  match err with
  | Some e => Some (Traced e)
  | None => None
  end.

(** ** The evaluation context *)

(** crypto/rand: asked for [n] bytes in some state, the source delivers some
    bytes and maybe an error. *)
Class RandSource : Type := {
  RandState : Type;
  rand_draw : RandState -> nat -> (list byte * option error) * RandState
}.

Section Worlds.

Context {rnd : RandSource}.

(** What an evaluation can change: the warnings of the statement context
    and the state of the random source. *)
Record World : Type := {
  warnings : list error;
  entropy : RandState
}.

(** An evaluation either finishes with a value in a new world or panics. *)
Inductive Outcome (A : Type) : Type :=
| Done (a : A) (w : World)
| Panic.

Arguments Panic {A}.

(** Computations in a world. *)
Definition M (A : Type) : Type := World -> Outcome A.

Definition ret {A : Type} (a : A) : M A := fun w => Done a w.

Definition bind {A B : Type} (m : M A) (k : A -> M B) : M B :=
  fun w =>
    match m w with
    | Done a w' => k a w'
    | Panic => Panic
    end.

Definition panic {A : Type} : M A := fun _ => Panic.

(** A slice operation in a computation: out of range is a panic. *)
Definition lift {A : Type} (o : option A) : M A :=
  match o with
  | Some a => ret a
  | None => panic
  end.

(** Modelled from the spec: [StatementContext.AppendWarning] is not in this
    file; it "appends a warning with a typed diagnostic" to the warnings of
    the statement. *)
Definition AppendWarning (warn : error) : M unit :=
  fun w => Done tt {| warnings := warnings w ++ [warn]; entropy := entropy w |}.

(** [rand.Read(buf)]: the bytes the source delivers overwrite the front of
    [buf]; the count of bytes written and the source's error come back. *)
Definition rand_Read (buf : list byte) : M (list byte * Z * option error) :=
  fun w =>
    let '(got, err, st) := rand_draw (entropy w) (length buf) in
    let n := Nat.min (length got) (length buf) in
    Done (firstn n got ++ skipn n buf, Z.of_nat n, err)
         {| warnings := warnings w; entropy := st |}.

End Worlds.

Arguments Panic {rnd A}.

Notation "x <- m ;; k" := (bind m (fun x => k))
  (at level 61, m at next level, right associativity).
Notation "' pat <- m ;; k" :=
  (bind m (fun x => match x with pat => k end))
  (at level 61, pat pattern, m at next level, right associativity).
Notation "m ;; k" := (bind m (fun _ => k))
  (at level 61, right associativity).

(** ** Slices *)

(** [l[i]], [None] when the index is out of range (a panic). *)
Definition index {A : Type} (l : list A) (i : Z) : option A :=
  if (i <? 0) || (len l <=? i) then None else nth_error l (Z.to_nat i).

(** [l[i] = x]. *)
Definition store {A : Type} (l : list A) (i : Z) (x : A) : option (list A) :=
  if (i <? 0) || (len l <=? i) then None
  else Some (firstn (Z.to_nat i) l ++ x :: skipn (S (Z.to_nat i)) l).

(** [l[lo:]]. *)
Definition slice_from {A : Type} (l : list A) (lo : Z) : option (list A) :=
  if (lo <? 0) || (len l <? lo) then None else Some (skipn (Z.to_nat lo) l).

(** [l[lo:hi]]. *)
Definition slice {A : Type} (l : list A) (lo hi : Z) : option (list A) :=
  if (lo <? 0) || (hi <? lo) || (len l <? hi) then None
  else Some (firstn (Z.to_nat (hi - lo)) (skipn (Z.to_nat lo) l)).

(** [copy(dst, src)]: the front of [dst] overwritten, as far as both reach. *)
Definition copy {A : Type} (dst src : list A) : list A :=
  let n := Nat.min (length dst) (length src) in
  firstn n src ++ skipn n dst.

(** [copy(dst[lo:], src)], as [dst] is left by it. *)
Definition copy_from {A : Type} (dst : list A) (lo : Z) (src : list A)
  : option (list A) :=
  match slice_from dst lo with
  | Some tl => Some (firstn (Z.to_nat lo) dst ++ copy tl src)
  | None => None
  end.

(** ** encoding/binary, little endian *)

(** [binary.LittleEndian.PutUint32(b, v)]. *)
Definition PutUint32 (b : list byte) (v : Z) : option (list byte) :=
  match index b 3 with
  | None => None
  | Some _ =>
    match store b 0 (to_byte v) with
    | None => None
    | Some b =>
      match store b 1 (to_byte (Z.shiftr v 8)) with
      | None => None
      | Some b =>
        match store b 2 (to_byte (Z.shiftr v 16)) with
        | None => None
        | Some b => store b 3 (to_byte (Z.shiftr v 24))
        end
      end
    end
  end.

(** [binary.LittleEndian.Uint32(b)]. *)
Definition Uint32 (b : list byte) : option Z :=
  match b with
  | b0 :: b1 :: b2 :: b3 :: _ =>
    Some (Z.lor (Z.lor (Z.lor (byte_val b0) (Z.shiftl (byte_val b1) 8))
                       (Z.shiftl (byte_val b2) 16))
                (Z.shiftl (byte_val b3) 24))
  | _ => None
  end.

(** The four bytes [PutUint32] writes for [v]. *)
Definition le32 (v : Z) : list byte :=
  [to_byte v; to_byte (Z.shiftr v 8); to_byte (Z.shiftr v 16);
   to_byte (Z.shiftr v 24)].

(** ** fmt *)

(** The digit of a value below sixteen, [0-9a-f] or [0-9A-F]. *)
Definition hex_digit (upper : bool) (d : Z) : byte :=
  if d <? 10 then to_byte (48 + d)
  else to_byte ((if upper then 55 else 87) + d).

(** The two digits of a byte, the high one first. *)
Definition hex_of_byte (upper : bool) (b : byte) : list byte :=
  [hex_digit upper (byte_val b / 16); hex_digit upper (byte_val b mod 16)].

(** [fmt.Sprintf("%x", bs)] of a byte array or slice. *)
Definition Sprintf_x (bs : list byte) : gostring :=
  flat_map (hex_of_byte false) bs.

(** [fmt.Sprintf("%X", bs)]. *)
Definition Sprintf_X (bs : list byte) : gostring :=
  flat_map (hex_of_byte true) bs.

(** ** The libraries behind the evaluators *)

(** compress/zlib with the buffer it writes to, and the reader with the
    [io.Copy] that drains it. *)
Class Zlib : Type := {
  zlib_Writer : Type;
  (** [zlib.NewWriter(&buffer)] on an empty buffer *)
  zlib_NewWriter : zlib_Writer;
  zlib_Write : zlib_Writer -> list byte -> zlib_Writer * option error;
  zlib_Writer_Close : zlib_Writer -> zlib_Writer * option error;
  (** [buffer.Bytes()] of the buffer under the writer *)
  zlib_Bytes : zlib_Writer -> list byte;
  zlib_Reader : Type;
  zlib_NewReader : list byte -> zlib_Reader + error;
  (** [io.Copy(&out, r)]: the contents of [out], the reader, the error *)
  io_Copy : zlib_Reader -> list byte * zlib_Reader * option error;
  zlib_Reader_Close : zlib_Reader -> option error
}.

(** What the evaluators rely on from compress/zlib: writing any data through
    a fresh writer and closing it succeeds and leaves a stream that is not
    empty; a reader opened on that stream, whatever bytes follow it, yields
    the data at its end of file and closes without error. *)
Class ZlibLaws (zl : Zlib) : Prop := {
  zlib_round_trip :
    forall data : list byte,
    exists w1 w2 : zlib_Writer,
      zlib_Write zlib_NewWriter data = (w1, None)
      /\ zlib_Writer_Close w1 = (w2, None)
      /\ zlib_Bytes w2 <> []
      /\ forall trailing : list byte,
         exists r r' : zlib_Reader,
           zlib_NewReader (zlib_Bytes w2 ++ trailing) = inl r
           /\ io_Copy r = (data, r', None)
           /\ zlib_Reader_Close r' = None
}.

(** crypto/md5, crypto/sha1, crypto/sha256 and crypto/sha512 behind
    [hash.Hash]. *)
Class HashLib : Type := {
  md5_Sum : list byte -> list byte;
  Hash : Type;
  sha1_New : Hash;
  sha256_New : Hash;
  sha256_New224 : Hash;
  sha512_New384 : Hash;
  sha512_New : Hash;
  Hash_Write : Hash -> list byte -> Hash * (Z * option error);
  Hash_Sum : Hash -> list byte -> list byte
}.

(** crypto/aes: the block cipher under a key, on one block. *)
Class AESCipher : Type := {
  aes_Encrypt : list byte -> list byte -> list byte;
  aes_Decrypt : list byte -> list byte -> list byte
}.

(** What the evaluators rely on from crypto/aes: under a 16-byte key a block
    of 16 bytes is encrypted to a block of 16 bytes, which decryption under
    the same key turns back into the block. *)
Class AESCipherLaws (aes : AESCipher) : Prop := {
  aes_Encrypt_length :
    forall key block : list byte,
      length key = 16%nat -> length block = 16%nat ->
      length (aes_Encrypt key block) = 16%nat;
  aes_Decrypt_Encrypt :
    forall key block : list byte,
      length key = 16%nat -> length block = 16%nat ->
      aes_Decrypt key (aes_Encrypt key block) = block
}.

(** ** util/auth and util/encrypt *)

Section Auth.

Context {hl : HashLib}.

(** [auth.Sha1Hash]: the SHA1 digest of the bytes. *)
Definition Sha1Hash (bs : list byte) : list byte :=
  let '(h, _) := Hash_Write sha1_New bs in
  Hash_Sum h [].

(** Modelled from the spec: [auth.EncodePassword] is not in this file; it
    gives "the legacy MySQL password hash", a "non-empty fixed-format hash"
    one character longer than the hash it carries ("fixed hash length + 1"):
    an asterisk before the upper-case hexadecimal SHA1 of the SHA1 of the
    password. *)
Definition EncodePassword (pwd : gostring) : gostring :=
  if len pwd =? 0 then []
  else "*"%byte :: Sprintf_X (Sha1Hash (Sha1Hash pwd)).

End Auth.

(** [a ^ b] on bytes. *)
Definition byte_xor (a b : byte) : byte :=
  let '(a0, (a1, (a2, (a3, (a4, (a5, (a6, a7))))))) := Byte.to_bits a in
  let '(b0, (b1, (b2, (b3, (b4, (b5, (b6, b7))))))) := Byte.to_bits b in
  Byte.of_bits (xorb a0 b0, (xorb a1 b1, (xorb a2 b2, (xorb a3 b3,
               (xorb a4 b4, (xorb a5 b5, (xorb a6 b6, xorb a7 b7))))))).

(** [rKey[i] ^= k], in range. *)
Definition xor_at (rKey : list byte) (i : nat) (k : byte) : list byte :=
  match nth_error rKey i with
  | Some b => firstn i rKey ++ byte_xor b k :: skipn (S i) rKey
  | None => rKey
  end.

(** Modelled from the spec: [encrypt.DeriveKeyMySQL] is not in this file; it
    is the "MySQL-compatible key-stretching algorithm (XOR-folding into a
    16-byte buffer)": the bytes of the key are xored one after the other into
    a zeroed buffer of the block size, starting over at its end. *)
Definition DeriveKeyMySQL (key : list byte) (blockSize : Z) : list byte :=
  fst (fold_left
         (fun (st : list byte * nat) (k : byte) =>
            let '(rKey, rIdx) := st in
            let rIdx := if Nat.eqb rIdx (Z.to_nat blockSize) then O else rIdx in
            (xor_at rKey rIdx k, S rIdx))
         key (make_bytes blockSize, O)).

Section Encrypt.

Context {aes : AESCipher}.

(** [aes.NewCipher(key)]: a key of 16, 24 or 32 bytes gives a cipher of
    block size 16. *)
Definition aes_NewCipher (key : list byte) : list byte + error :=
  if (len key =? 16) || (len key =? 24) || (len key =? 32)
  then inl key
  else inr (External "crypto/aes: invalid key size").

(** [cb.BlockSize()]. *)
Definition aes_BlockSize : Z := 16.

(** ECB: the cipher applied to each block on its own, no chaining. *)
Fixpoint CryptBlocks (f : list byte -> list byte) (blocks : nat)
    (src : list byte) : list byte :=
  match blocks with
  | O => []
  | S n =>
    f (firstn (Z.to_nat aes_BlockSize) src)
      ++ CryptBlocks f n (skipn (Z.to_nat aes_BlockSize) src)
  end.

(** Padding to whole blocks, at least one byte of it, each padding byte
    holding the count of them (PKCS #7). *)
Definition PKCS7Pad (data : list byte) (blockSize : Z) : list byte :=
  let padLen := blockSize - len data mod blockSize in
  data ++ repeat (to_byte padLen) (Z.to_nat padLen).

(** The padding taken off again; data that does not end in such a padding
    is refused. *)
Definition PKCS7Unpad (data : list byte) (blockSize : Z)
  : list byte * option error :=
  let length := len data in
  if (length =? 0) || negb (length mod blockSize =? 0)
  then ([], Some (errors_New "Invalid padding size"))
  else
    let pad := last data x00 in
    let padLen := byte_val pad in
    if (padLen >? blockSize) || (padLen =? 0)
    then ([], Some (errors_New "Invalid padding size"))
    else if forallb (Byte.eqb pad) (skipn (Z.to_nat (length - padLen)) data)
    then (firstn (Z.to_nat (length - padLen)) data, None)
    else ([], Some (errors_New "Invalid padding")).

(** Modelled from the spec: [encrypt.AESEncryptWithECB] is not in this file;
    it applies "ECB-mode AES" under the derived key, to a result of
    [blockSize * (inputLen/blockSize + 1)] bytes: the input is padded to
    whole blocks first. *)
Definition AESEncryptWithECB (str key : list byte) : list byte * option error :=
  match aes_NewCipher key with
  | inr err => ([], Trace (Some err))
  | inl cb =>
    let data := PKCS7Pad str aes_BlockSize in
    (CryptBlocks (aes_Encrypt cb) (Z.to_nat (len data / aes_BlockSize)) data,
     None)
  end.

(** Modelled from the spec: [encrypt.AESDecryptWithECB] is not in this file;
    it undoes [AESEncryptWithECB]: a ciphertext that is not whole blocks is
    corrupted, the blocks are decrypted one by one and the padding is taken
    off, the plaintext being no longer than the input. *)
Definition AESDecryptWithECB (cryptStr key : list byte)
  : list byte * option error :=
  match aes_NewCipher key with
  | inr err => ([], Trace (Some err))
  | inl cb =>
    if negb (len cryptStr mod aes_BlockSize =? 0)
    then ([], Some (errors_New "Corrupted data"))
    else
      let data :=
        CryptBlocks (aes_Decrypt cb)
                    (Z.to_nat (len cryptStr / aes_BlockSize)) cryptStr in
      PKCS7Unpad data aes_BlockSize
  end.

End Encrypt.

(** ** deflate and inflate *)

Section Deflate.

Context {zl : Zlib}.

(** deflate compresses a string using the DEFLATE format. *)
Definition deflate (data : list byte) : list byte * option error :=
  let w := zlib_NewWriter in
  let '(w, err) := zlib_Write w data in
  if notnil err then ([], Trace err) else
  let '(w, err) := zlib_Writer_Close w in
  if notnil err then ([], Trace err) else
  (zlib_Bytes w, None).

(** inflate uncompresses a string using the DEFLATE format. *)
Definition inflate (compressStr : list byte) : list byte * option error :=
  match zlib_NewReader compressStr with
  | inr err => ([], Trace (Some err))
  | inl r =>
    let '(out, r, err) := io_Copy r in
    if notnil err then ([], Trace err) else
    let err := zlib_Reader_Close r in
    (out, Trace err)
  end.

End Deflate.

(** ** Argument expressions *)

Section Expressions.

Context {rnd : RandSource} {Row : Type}.

(** The two operations of [Expression] the evaluators use. *)
Record Expression : Type := {
  EvalString : Row -> M (gostring * bool * option error);
  EvalInt : Row -> M (Z * bool * option error)
}.

(** [b.args[i]]. *)
Definition arg (args : list Expression) (i : Z) : M Expression :=
  lift (index args i).

(** ** The evaluators *)

Context {zl : Zlib} {hl : HashLib} {aes : AESCipher}.

(** The block size of the one mode supported, AES-128 in ECB. *)
Definition aes128ecbBlobkSize : Z := 16.

(** evalString evals AES_DECRYPT(crypt_str, key_key). *)
Definition builtinAesDecryptSig_evalString
    (args : list Expression) (row : Row) : M (gostring * bool * option error) :=
  a0 <- arg args 0 ;;
  '(cryptStr, isNull, err) <- EvalString a0 row ;;
  if isNull || notnil err then ret ([], true, Trace err) else
  a1 <- arg args 1 ;;
  '(keyStr, isNull, err) <- EvalString a1 row ;;
  if isNull || notnil err then ret ([], true, Trace err) else
  let key := DeriveKeyMySQL keyStr aes128ecbBlobkSize in
  let '(plainText, err) := AESDecryptWithECB cryptStr key in
  if notnil err then ret ([], true, None) else
  ret (plainText, false, None).

(** evalString evals AES_ENCRYPT(str, key_str). *)
Definition builtinAesEncryptSig_evalString
    (args : list Expression) (row : Row) : M (gostring * bool * option error) :=
  a0 <- arg args 0 ;;
  '(str, isNull, err) <- EvalString a0 row ;;
  if isNull || notnil err then ret ([], true, Trace err) else
  a1 <- arg args 1 ;;
  '(keyStr, isNull, err) <- EvalString a1 row ;;
  if isNull || notnil err then ret ([], true, Trace err) else
  let key := DeriveKeyMySQL keyStr aes128ecbBlobkSize in
  let '(cipherText, err) := AESEncryptWithECB str key in
  if notnil err then ret ([], true, None) else
  ret (cipherText, false, None).

(** evalString evals a builtinPasswordSig. *)
Definition builtinPasswordSig_evalString
    (args : list Expression) (row : Row) : M (gostring * bool * option error) :=
  a0 <- arg args 0 ;;
  '(pass, isNull, err) <- EvalString a0 row ;;
  if isNull || notnil err then ret ([], notnil err, Trace err) else
  if len pass =? 0 then ret ([], false, None) else
  AppendWarning (errDeprecatedSyntaxNoReplacement "PASSWORD") ;;
  ret (EncodePassword pass, false, None).

(** evalString evals RANDOM_BYTES(len). *)
Definition builtinRandomBytesSig_evalString
    (args : list Expression) (row : Row) : M (gostring * bool * option error) :=
  a0 <- arg args 0 ;;
  '(len, isNull, err) <- EvalInt a0 row ;;
  if isNull || notnil err then ret ([], true, Trace err) else
  if (len <? 1) || (len >? 1024)
  then ret ([], false, Some (ErrOverflow "length" "random_bytes")) else
  let buf := make_bytes len in
  '(buf, n, err) <- rand_Read buf ;;
  if notnil err then ret ([], true, Trace err)
  else if negb (n =? len)
  then ret ([], false, Some (errors_New "fail to generate random bytes"))
  else ret (buf, false, None).

(** evalString evals a builtinMD5Sig. *)
Definition builtinMD5Sig_evalString
    (args : list Expression) (row : Row) : M (gostring * bool * option error) :=
  a0 <- arg args 0 ;;
  '(arg, isNull, err) <- EvalString a0 row ;;
  if isNull || notnil err then ret ([], isNull, Trace err) else
  let sum := md5_Sum arg in
  let hexStr := Sprintf_x sum in
  ret (hexStr, false, None).

(** evalString evals SHA1(str). *)
Definition builtinSHA1Sig_evalString
    (args : list Expression) (row : Row) : M (gostring * bool * option error) :=
  a0 <- arg args 0 ;;
  '(str, isNull, err) <- EvalString a0 row ;;
  if isNull || notnil err then ret ([], isNull, Trace err) else
  let hasher := sha1_New in
  let '(hasher, (_, err)) := Hash_Write hasher str in
  if notnil err then ret ([], true, Trace err) else
  ret (Sprintf_x (Hash_Sum hasher []), false, None).

(** Supported hash length of SHA-2 family *)
Definition SHA0 : Z := 0.
Definition SHA224 : Z := 224.
Definition SHA256 : Z := 256.
Definition SHA384 : Z := 384.
Definition SHA512 : Z := 512.

(** The [switch] of SHA2: the hasher stays [nil] when no case matches. *)
Definition sha2_hasher (hashLength : Z) : option Hash :=
  let n := int hashLength in
  if (n =? SHA0) || (n =? SHA256) then Some sha256_New
  else if n =? SHA224 then Some sha256_New224
  else if n =? SHA384 then Some sha512_New384
  else if n =? SHA512 then Some sha512_New
  else None.

(** evalString evals SHA2(str, hash_length). *)
Definition builtinSHA2Sig_evalString
    (args : list Expression) (row : Row) : M (gostring * bool * option error) :=
  a0 <- arg args 0 ;;
  '(str, isNull, err) <- EvalString a0 row ;;
  if isNull || notnil err then ret ([], isNull, Trace err) else
  a1 <- arg args 1 ;;
  '(hashLength, isNull, err) <- EvalInt a1 row ;;
  if isNull || notnil err then ret ([], isNull, Trace err) else
  match sha2_hasher hashLength with
  | None => ret ([], true, None)
  | Some hasher =>
    let '(hasher, (_, err)) := Hash_Write hasher str in
    if notnil err then ret ([], true, Trace err) else
    ret (Sprintf_x (Hash_Sum hasher []), false, None)
  end.

(** evalString evals COMPRESS(str). *)
Definition builtinCompressSig_evalString
    (args : list Expression) (row : Row) : M (gostring * bool * option error) :=
  a0 <- arg args 0 ;;
  '(str, isNull, err) <- EvalString a0 row ;;
  if isNull || notnil err then ret ([], true, Trace err) else
  if len str =? 0 then ret ([], false, None) else
  let '(compressed, err) := deflate str in
  if notnil err then ret ([], true, None) else
  let resultLength := 4 + len compressed in
  final <- lift (index compressed (len compressed - 1)) ;;
  let shouldAppendSuffix := byte_val final =? 32 in
  let resultLength :=
    if shouldAppendSuffix then resultLength + 1 else resultLength in
  let buffer := make_bytes resultLength in
  buffer <- lift (PutUint32 buffer (uint32 (len str))) ;;
  buffer <- lift (copy_from buffer 4 compressed) ;;
  buffer <- (if shouldAppendSuffix
             then lift (store buffer (len buffer - 1) "."%byte)
             else ret buffer) ;;
  ret (buffer, false, None).

(** evalString evals UNCOMPRESS(compressed_string). *)
Definition builtinUncompressSig_evalString
    (args : list Expression) (row : Row) : M (gostring * bool * option error) :=
  a0 <- arg args 0 ;;
  '(payload, isNull, err) <- EvalString a0 row ;;
  if isNull || notnil err then ret ([], true, Trace err) else
  if len payload =? 0 then ret ([], false, None) else
  if len payload <=? 4 then
    AppendWarning errZlibZData ;;
    ret ([], true, None)
  else
  rest <- lift (slice_from payload 4) ;;
  let '(bytes, err) := inflate rest in
  if notnil err then
    AppendWarning errZlibZData ;;
    ret ([], true, None)
  else
  ret (bytes, false, None).

(** evalInt evals UNCOMPRESSED_LENGTH(str). *)
Definition builtinUncompressedLengthSig_evalInt
    (args : list Expression) (row : Row) : M (Z * bool * option error) :=
  a0 <- arg args 0 ;;
  '(payload, isNull, err) <- EvalString a0 row ;;
  if isNull || notnil err then ret (0, true, Trace err) else
  if len payload =? 0 then ret (0, false, None) else
  if len payload <=? 4 then
    AppendWarning errZlibZData ;;
    ret (0, false, None)
  else
  prefix <- lift (slice payload 0 4) ;;
  let len := Uint32 prefix in
  len <- lift len ;;
  ret (len, false, None).

(** ** The family *)

(** The evaluators of this file, as its [builtinFunc] block lists them. *)
Inductive Builtin : Type :=
| AES_DECRYPT
| AES_ENCRYPT
| COMPRESS
| MD5
| PASSWORD
| RANDOM_BYTES
| SHA1
| SHA2
| UNCOMPRESS
| UNCOMPRESSED_LENGTH.

(** [types.ETInt] and [types.ETString]. *)
Inductive EvalType : Type := ETInt | ETString.

(** The argument types each [getFunction] hands to
    [newBaseBuiltinFuncWithTp] after the result type. *)
Definition argTypes (f : Builtin) : list EvalType :=
  match f with
  | AES_DECRYPT | AES_ENCRYPT => [ETString; ETString]
  | SHA2 => [ETString; ETInt]
  | RANDOM_BYTES => [ETInt]
  | COMPRESS | MD5 | PASSWORD | SHA1 | UNCOMPRESS | UNCOMPRESSED_LENGTH =>
    [ETString]
  end.

(** A result of either kind. *)
Inductive Datum : Type :=
| DString (s : gostring)
| DInt (n : Z).

(** The result of [evalString] as a result of either kind. *)
Definition asString (m : M (gostring * bool * option error))
  : M (Datum * bool * option error) :=
  '(s, isNull, err) <- m ;; ret (DString s, isNull, err).

(** The result of [evalInt] as a result of either kind. *)
Definition asInt (m : M (Z * bool * option error))
  : M (Datum * bool * option error) :=
  '(n, isNull, err) <- m ;; ret (DInt n, isNull, err).

(** The row evaluation of a member of the family. *)
Definition eval (f : Builtin) (args : list Expression) (row : Row)
  : M (Datum * bool * option error) :=
  match f with
  | AES_DECRYPT => asString (builtinAesDecryptSig_evalString args row)
  | AES_ENCRYPT => asString (builtinAesEncryptSig_evalString args row)
  | COMPRESS => asString (builtinCompressSig_evalString args row)
  | MD5 => asString (builtinMD5Sig_evalString args row)
  | PASSWORD => asString (builtinPasswordSig_evalString args row)
  | RANDOM_BYTES => asString (builtinRandomBytesSig_evalString args row)
  | SHA1 => asString (builtinSHA1Sig_evalString args row)
  | SHA2 => asString (builtinSHA2Sig_evalString args row)
  | UNCOMPRESS => asString (builtinUncompressSig_evalString args row)
  | UNCOMPRESSED_LENGTH => asInt (builtinUncompressedLengthSig_evalInt args row)
  end.

(** The value every evaluator returns beside a NULL or an error. *)
Definition zero (f : Builtin) : Datum :=
  match f with
  | UNCOMPRESSED_LENGTH => DInt 0
  | _ => DString []
  end.

(** The NULL flag an evaluator returns when an argument came back with the
    flag [isNull] and the error [err], as each one writes it. *)
Definition nullFlag (f : Builtin) (isNull : bool) (err : option error) : bool :=
  match f with
  | PASSWORD => notnil err
  | MD5 | SHA1 | SHA2 => isNull
  | _ => true
  end.

(** An argument read as its type asks, the value dropped. *)
Definition evalArg (t : EvalType) (a : Expression) (row : Row)
  : M (bool * option error) :=
  match t with
  | ETString => '(_, isNull, err) <- EvalString a row ;; ret (isNull, err)
  | ETInt => '(_, isNull, err) <- EvalInt a row ;; ret (isNull, err)
  end.

(** Reading the arguments in order from world [w], the first one that is
    NULL or raises an error does so with flag [isNull] and error [err], in
    world [w']; the arguments before it gave a value. *)
Inductive ArgsFail (row : Row)
  : list EvalType -> list Expression -> World -> bool -> option error ->
    World -> Prop :=
| fail_here : forall t ts a rest w isNull err w',
    evalArg t a row w = Done (isNull, err) w' ->
    isNull = true \/ err <> None ->
    ArgsFail row (t :: ts) (a :: rest) w isNull err w'
| fail_later : forall t ts a rest w w1 isNull err w',
    evalArg t a row w = Done (false, None) w1 ->
    ArgsFail row ts rest w1 isNull err w' ->
    ArgsFail row (t :: ts) (a :: rest) w isNull err w'.

(** The expression a call of a string builtin is: evaluating it runs the
    evaluator on the row; read as an integer it is the panicking default. *)
Definition ScalarFunction (f : Row -> M (gostring * bool * option error))
  : Expression :=
  {| EvalString := f; EvalInt := fun _ => panic |}.

(** An expression that is a string value. *)
Definition ConstantString (s : gostring) : Expression :=
  {| EvalString := fun _ => ret (s, false, None);
     EvalInt := fun _ => panic |}.

(** An expression that is an integer value. *)
Definition ConstantInt (n : Z) : Expression :=
  {| EvalString := fun _ => panic;
     EvalInt := fun _ => ret (n, false, None) |}.

(** The expression NULL. *)
Definition ConstantNull : Expression :=
  {| EvalString := fun _ => ret ([], true, None);
     EvalInt := fun _ => ret (0, true, None) |}.

End Expressions.

(** ** A small library to run the evaluators on *)

Module Sample.

(** A source that is a counter: every byte of a read is the count. *)
Definition rnd : RandSource :=
  {| RandState := nat;
     rand_draw := fun st n => (repeat (to_byte (Z.of_nat st)) n, None, S st) |}.

(** A stream format that ends where it says: every byte after a [x01] mark,
    then a [x00] mark and the last byte of the data once more. *)
Fixpoint encode (data : list byte) (final : byte) : list byte :=
  match data with
  | [] => [x00; final]
  | b :: rest => x01 :: b :: encode rest b
  end.

Fixpoint decode (l : list byte) : option (list byte) :=
  match l with
  | m :: b :: rest =>
    if Byte.eqb m x01 then
      match decode rest with
      | Some data => Some (b :: data)
      | None => None
      end
    else if Byte.eqb m x00 then Some []
    else None
  | _ => None
  end.

Definition zl : Zlib :=
  {| zlib_Writer := list byte * list byte;
     zlib_NewWriter := ([], []);
     zlib_Write := fun w data => ((fst w ++ data, snd w), None);
     zlib_Writer_Close := fun w => ((fst w, encode (fst w) x00), None);
     zlib_Bytes := fun w => snd w;
     zlib_Reader := list byte;
     zlib_NewReader := fun l =>
       match decode l with
       | Some data => inl data
       | None => inr (External "zlib: invalid header")
       end;
     io_Copy := fun r => (r, r, None);
     zlib_Reader_Close := fun _ => None |}.

(** A digest that is the count of the bytes written after a tag. *)
Definition hl : HashLib :=
  {| md5_Sum := fun data => [to_byte (len data)];
     Hash := list byte;
     sha1_New := [x01];
     sha256_New := [x02];
     sha256_New224 := [x03];
     sha512_New384 := [x04];
     sha512_New := [x05];
     Hash_Write := fun h data => (h ++ data, (len data, None));
     Hash_Sum := fun h b => b ++ firstn 1 h ++ [to_byte (len h)] |}.

(** A block cipher that xors the key into the block. *)
Definition xor_block (key block : list byte) : list byte :=
  map (fun p => byte_xor (fst p) (snd p)) (combine block key).

Definition aes : AESCipher :=
  {| aes_Encrypt := xor_block; aes_Decrypt := xor_block |}.

(** The world before anything happened. *)
Definition w0 : @World rnd := @Build_World rnd [] O.

(** The arguments of the examples. *)
Definition null_arg : @Expression rnd unit := ConstantNull.

Definition string_arg (s : gostring) : @Expression rnd unit :=
  ConstantString s.

Definition int_arg (n : Z) : @Expression rnd unit := ConstantInt n.

End Sample.

(** ** Signature resolution *)

(** What the hash packages promise of their digests: [md5.Size],
    [sha1.Size], [sha256.Size224], [sha256.Size], [sha512.Size384] and
    [sha512.Size] bytes. *)
Class HashSizes (hl : HashLib) : Prop := {
  md5_Size : forall data : list byte, len (md5_Sum data) = 16;
  sha1_Size :
    forall (data : list byte) (h : Hash) (r : Z * option error),
      Hash_Write sha1_New data = (h, r) -> len (Hash_Sum h []) = 20;
  sha256_Size224 :
    forall (data : list byte) (h : Hash) (r : Z * option error),
      Hash_Write sha256_New224 data = (h, r) -> len (Hash_Sum h []) = 28;
  sha256_Size :
    forall (data : list byte) (h : Hash) (r : Z * option error),
      Hash_Write sha256_New data = (h, r) -> len (Hash_Sum h []) = 32;
  sha512_Size384 :
    forall (data : list byte) (h : Hash) (r : Z * option error),
      Hash_Write sha512_New384 data = (h, r) -> len (Hash_Sum h []) = 48;
  sha512_Size :
    forall (data : list byte) (h : Hash) (r : Z * option error),
      Hash_Write sha512_New data = (h, r) -> len (Hash_Sum h []) = 64
}.

(** [a + b] and [a * b] on [int]. *)
Definition int_add (a b : Z) : Z := int (a + b).
Definition int_mul (a b : Z) : Z := int (a * b).

Section Resolution.

Context {rnd : RandSource} {Row : Type}.

(** An argument as [getFunction] sees it: the expression and what
    [GetType().Flen] gives for it when the function reads it. *)
Record Argument : Type := {
  expression : @Expression rnd Row;
  GetType_Flen : Z
}.

(** What [getFunction] settles of a signature: the evaluator it wraps, the
    [Flen] it writes into [bf.tp] and whether it calls
    [types.SetBinChsClnFlag] on it. *)
Record Signature : Type := {
  sig_eval : Builtin;
  tp_Flen : Z;
  tp_binary : bool
}.

(** [c.verifyArgs] of [baseFunctionClass], per function class, and the two
    constants of package mysql: declared outside this file. *)
Variable verifyArgs : Builtin -> list Argument -> option error.
Variable PWDHashLen : Z.
Variable MaxBlobWidth : Z.

(** The outcome of [getFunction]: the signature and the error, or a panic
    ([None]) when [args[0]] is read from an empty list. *)
Definition Resolved : Type := option (option Signature * option error).

Definition aesDecryptFunctionClass_getFunction (args : list Argument)
  : Resolved :=
  if notnil (verifyArgs AES_DECRYPT args)
  then Some (None, Trace (verifyArgs AES_DECRYPT args))
  else
    match index args 0 with
    | None => None
    | Some a0 =>
      Some (Some {| sig_eval := AES_DECRYPT;
                    tp_Flen := GetType_Flen a0;
                    tp_binary := true |}, None)
    end.

Definition aesEncryptFunctionClass_getFunction (args : list Argument)
  : Resolved :=
  if notnil (verifyArgs AES_ENCRYPT args)
  then Some (None, Trace (verifyArgs AES_ENCRYPT args))
  else
    match index args 0 with
    | None => None
    | Some a0 =>
      Some (Some {| sig_eval := AES_ENCRYPT;
                    tp_Flen :=
                      int_mul aes128ecbBlobkSize
                        (int_add (Z.quot (GetType_Flen a0) aes128ecbBlobkSize)
                                 1);
                    tp_binary := true |}, None)
    end.

Definition passwordFunctionClass_getFunction (args : list Argument)
  : Resolved :=
  match verifyArgs PASSWORD args with
  | Some err => Some (None, Trace (Some err))
  | None =>
    Some (Some {| sig_eval := PASSWORD;
                  tp_Flen := int_add PWDHashLen 1;
                  tp_binary := false |}, None)
  end.

Definition randomBytesFunctionClass_getFunction (args : list Argument)
  : Resolved :=
  match verifyArgs RANDOM_BYTES args with
  | Some err => Some (None, Trace (Some err))
  | None =>
    Some (Some {| sig_eval := RANDOM_BYTES;
                  tp_Flen := 1024;
                  tp_binary := true |}, None)
  end.

Definition md5FunctionClass_getFunction (args : list Argument) : Resolved :=
  match verifyArgs MD5 args with
  | Some err => Some (None, Trace (Some err))
  | None =>
    Some (Some {| sig_eval := MD5; tp_Flen := 32; tp_binary := false |}, None)
  end.

Definition sha1FunctionClass_getFunction (args : list Argument) : Resolved :=
  match verifyArgs SHA1 args with
  | Some err => Some (None, Trace (Some err))
  | None =>
    Some (Some {| sig_eval := SHA1; tp_Flen := 40; tp_binary := false |}, None)
  end.

Definition sha2FunctionClass_getFunction (args : list Argument) : Resolved :=
  match verifyArgs SHA2 args with
  | Some err => Some (None, Trace (Some err))
  | None =>
    Some (Some {| sig_eval := SHA2; tp_Flen := 128; tp_binary := false |},
          None)
  end.

Definition compressFunctionClass_getFunction (args : list Argument)
  : Resolved :=
  match verifyArgs COMPRESS args with
  | Some err => Some (None, Trace (Some err))
  | None =>
    match index args 0 with
    | None => None
    | Some a0 =>
      let srcLen := GetType_Flen a0 in
      let compressBound :=
        int_add (int_add (int_add (int_add srcLen (Z.shiftr srcLen 12))
                                  (Z.shiftr srcLen 14))
                         (Z.shiftr srcLen 25))
                13 in
      let compressBound :=
        if compressBound >? MaxBlobWidth then MaxBlobWidth
        else compressBound in
      Some (Some {| sig_eval := COMPRESS;
                    tp_Flen := compressBound;
                    tp_binary := true |}, None)
    end
  end.

Definition uncompressFunctionClass_getFunction (args : list Argument)
  : Resolved :=
  match verifyArgs UNCOMPRESS args with
  | Some err => Some (None, Trace (Some err))
  | None =>
    Some (Some {| sig_eval := UNCOMPRESS;
                  tp_Flen := MaxBlobWidth;
                  tp_binary := true |}, None)
  end.

Definition uncompressedLengthFunctionClass_getFunction
    (args : list Argument) : Resolved :=
  match verifyArgs UNCOMPRESSED_LENGTH args with
  | Some err => Some (None, Trace (Some err))
  | None =>
    Some (Some {| sig_eval := UNCOMPRESSED_LENGTH;
                  tp_Flen := 10;
                  tp_binary := false |}, None)
  end.

(** [getFunction] of the class of a member of the family. *)
Definition getFunction (f : Builtin) (args : list Argument) : Resolved :=
  match f with
  | AES_DECRYPT => aesDecryptFunctionClass_getFunction args
  | AES_ENCRYPT => aesEncryptFunctionClass_getFunction args
  | COMPRESS => compressFunctionClass_getFunction args
  | MD5 => md5FunctionClass_getFunction args
  | PASSWORD => passwordFunctionClass_getFunction args
  | RANDOM_BYTES => randomBytesFunctionClass_getFunction args
  | SHA1 => sha1FunctionClass_getFunction args
  | SHA2 => sha2FunctionClass_getFunction args
  | UNCOMPRESS => uncompressFunctionClass_getFunction args
  | UNCOMPRESSED_LENGTH => uncompressedLengthFunctionClass_getFunction args
  end.

End Resolution.

(** Lower-case hexadecimal digits. *)
Definition is_lower_hex (b : byte) : bool :=
  ((48 <=? byte_val b) && (byte_val b <=? 57))
  || ((97 <=? byte_val b) && (byte_val b <=? 102)).

(** ** A library with digests of the real sizes *)

Module SizedSample.

(** A digest that repeats the count of the bytes written, as long as the
    digest of the algorithm is. *)
Definition hl : HashLib :=
  {| md5_Sum := fun data => repeat (to_byte (len data)) 16;
     Hash := nat * list byte;
     sha1_New := (20%nat, []);
     sha256_New := (32%nat, []);
     sha256_New224 := (28%nat, []);
     sha512_New384 := (48%nat, []);
     sha512_New := (64%nat, []);
     Hash_Write := fun h data => ((fst h, snd h ++ data), (len data, None));
     Hash_Sum := fun h b => b ++ repeat (to_byte (len (snd h))) (fst h) |}.

(** A writer that fails. *)
Definition failing_zl : Zlib :=
  {| zlib_Writer := unit;
     zlib_NewWriter := tt;
     zlib_Write := fun _ _ => (tt, Some (External "short write"));
     zlib_Writer_Close := fun _ => (tt, None);
     zlib_Bytes := fun _ => [];
     zlib_Reader := list byte;
     zlib_NewReader := fun l => inl l;
     io_Copy := fun r => (r, r, None);
     zlib_Reader_Close := fun _ => Some (External "checksum") |}.

(** Arity as [verifyArgs] checks it. *)
Definition verifyArgs (f : Builtin) (args : list (@Argument Sample.rnd unit))
  : option error :=
  if Nat.eqb (length args) (length (argTypes f)) then None
  else Some (External "incorrect parameter count").

Definition sized_arg (flen : Z) : @Argument Sample.rnd unit :=
  {| expression := Sample.null_arg; GetType_Flen := flen |}.

End SizedSample.

(** * Properties *)

Unset Implicit Arguments.

(** ** The definitions on examples *)

Example Sprintf_x_digits :
  Sprintf_x [x00; x0f; xa5; xff]
  = ["0"; "0"; "0"; "f"; "a"; "5"; "f"; "f"]%byte.
Proof. reflexivity. Qed.

Example Sprintf_X_digits :
  Sprintf_X [x3c; xed] = ["3"; "C"; "E"; "D"]%byte.
Proof. reflexivity. Qed.

Example le32_300 : le32 300 = [x2c; x01; x00; x00].
Proof. reflexivity. Qed.

Example uint32_wraps : uint32 (2 ^ 32 + 5) = 5.
Proof. reflexivity. Qed.

Example int_wraps : int (2 ^ 63) = - 2 ^ 63.
Proof. reflexivity. Qed.

Example slice_out_of_range : slice [x01; x02; x03] 0 4 = None.
Proof. reflexivity. Qed.

Example PutUint32_short_buffer : PutUint32 [x00; x00; x00] 7 = None.
Proof. reflexivity. Qed.

Example DeriveKeyMySQL_folds :
  DeriveKeyMySQL (x07 :: repeat x01 15 ++ [x05]) 16 = x02 :: repeat x01 15.
Proof. reflexivity. Qed.

Example PKCS7Pad_whole_block :
  PKCS7Pad (repeat x41 16) 16 = repeat x41 16 ++ repeat x10 16.
Proof. reflexivity. Qed.

Example PKCS7Unpad_bad_padding :
  PKCS7Unpad (repeat x41 16) 16
  = ([], Some (errors_New "Invalid padding size")).
Proof. reflexivity. Qed.

Example md5_of_sample :
  @builtinMD5Sig_evalString Sample.rnd unit Sample.hl
    [Sample.string_arg ["a"; "b"; "c"]%byte] tt Sample.w0
  = Done (["0"; "3"]%byte, false, None) Sample.w0.
Proof. reflexivity. Qed.

Example aes_decrypt_corrupted_is_null :
  @builtinAesDecryptSig_evalString Sample.rnd unit Sample.aes
    [Sample.string_arg ["a"; "b"; "c"]%byte; Sample.string_arg ["k"]%byte]
    tt Sample.w0
  = Done ([], true, None) Sample.w0.
Proof. reflexivity. Qed.

Example uncompress_garbage_warns :
  @builtinUncompressSig_evalString Sample.rnd unit Sample.zl
    [Sample.string_arg [x01; x00; x00; x00; x07; x07]] tt Sample.w0
  = Done ([], true, None) (@Build_World Sample.rnd [errZlibZData] O).
Proof. reflexivity. Qed.

Example missing_argument_panics :
  @builtinMD5Sig_evalString Sample.rnd unit Sample.hl [] tt Sample.w0 = Panic.
Proof. reflexivity. Qed.

(** ** Running the monad *)

Lemma len_nil {A : Type} : len (@nil A) = 0.
Proof. reflexivity. Qed.

Lemma len_cons {A : Type} (x : A) (l : list A) : len (x :: l) = 1 + len l.
Proof. unfold len. cbn [Datatypes.length]. lia. Qed.

Lemma len_app {A : Type} (l1 l2 : list A) : len (l1 ++ l2) = len l1 + len l2.
Proof. unfold len. rewrite length_app. lia. Qed.

Lemma len_nonneg {A : Type} (l : list A) : 0 <= len l.
Proof. unfold len. lia. Qed.

Lemma len_zero {A : Type} (l : list A) : len l = 0 -> l = [].
Proof. destruct l; [reflexivity|]. rewrite len_cons. pose proof (len_nonneg l). lia. Qed.

(** Arithmetic over lengths. *)
Ltac len_lia :=
  rewrite ?len_app, ?len_cons, ?len_nil in *;
  repeat match goal with
  | |- context [len ?l] =>
    lazymatch goal with
    | _ : 0 <= len l |- _ => fail
    | _ => pose proof (len_nonneg l)
    end
  | _ : context [len ?l] |- _ =>
    lazymatch goal with
    | _ : 0 <= len l |- _ => fail
    | _ => pose proof (len_nonneg l)
    end
  end;
  lia.

(** Decides the integer tests of the goal, closing the cases arithmetic
    excludes. *)
Ltac ztests :=
  repeat match goal with
  | |- context [Z.gtb ?a ?b] => rewrite (Z.gtb_ltb a b)
  | |- context [Z.eqb ?a ?b] => destruct (Z.eqb_spec a b); try len_lia
  | |- context [Z.leb ?a ?b] => destruct (Z.leb_spec a b); try len_lia
  | |- context [Z.ltb ?a ?b] => destruct (Z.ltb_spec a b); try len_lia
  end.

Section Run.

Context {rnd : RandSource}.

Lemma bind_Done {A B : Type} {m : M A} (k : A -> M B) {w w' : World} {a : A} :
  m w = Done a w' -> bind m k w = k a w'.
Proof. intros E. unfold bind. rewrite E. reflexivity. Qed.

Lemma bind_ret {A B : Type} (a : A) (k : A -> M B) (w : World) :
  bind (ret a) k w = k a w.
Proof. reflexivity. Qed.

Lemma arg_head {Row : Type} (a : @Expression rnd Row) (rest : list Expression)
    (w : World) :
  arg (a :: rest) 0 w = Done a w.
Proof. reflexivity. Qed.

Lemma arg_second {Row : Type} (a b : @Expression rnd Row)
    (rest : list Expression) (w : World) :
  arg (a :: b :: rest) 1 w = Done b w.
Proof.
  unfold arg, index. ztests. reflexivity.
Qed.

End Run.

(** Reads the first argument of an evaluator with the equation [E]. *)
Ltac read_arg E :=
  rewrite (bind_Done _ (arg_head _ _ _));
  rewrite (bind_Done _ E); cbv beta iota.

(** Takes the branch of an argument that is a value. *)
Ltac is_value := change (false || notnil None) with false; cbv iota.

(** The same for the second argument. *)
Ltac read_arg2 E :=
  rewrite (bind_Done _ (arg_second _ _ _ _));
  rewrite (bind_Done _ E); cbv beta iota.

(** ** Bytes and little-endian words *)

Lemma byte_val_range (b : byte) : 0 <= byte_val b < 256.
Proof.
  unfold byte_val. pose proof (Byte.to_N_bounded b) as H.
  split; [apply N2Z.is_nonneg|].
  change 256 with (Z.succ (Z.of_N 255)). apply Zle_lt_succ.
  apply N2Z.inj_le. exact H.
Qed.

Lemma to_byte_val (b : byte) : to_byte (byte_val b) = b.
Proof.
  unfold to_byte. rewrite Z.mod_small by apply byte_val_range.
  unfold byte_val. rewrite N2Z.id, Byte.of_to_N. reflexivity.
Qed.

Lemma byte_val_to_byte (z : Z) : 0 <= z < 256 -> byte_val (to_byte z) = z.
Proof.
  intros Hz. unfold to_byte. rewrite Z.mod_small by exact Hz.
  destruct (Byte.of_N (Z.to_N z)) as [b|] eqn:E.
  - apply Byte.to_of_N in E. unfold byte_val. rewrite E. lia.
  - apply Byte.of_N_None_iff in E. lia.
Qed.

Lemma lor_shiftl_add (x y n : Z) :
  0 <= n -> 0 <= x < 2 ^ n -> Z.lor x (Z.shiftl y n) = x + y * 2 ^ n.
Proof.
  intros Hn Hx. rewrite <- Z.shiftl_mul_pow2 by exact Hn.
  pose proof (Z.add_lor_land x (Z.shiftl y n)) as Hadd.
  enough (Z.land x (Z.shiftl y n) = 0) by lia.
  apply Z.bits_inj'. intros i Hi.
  rewrite Z.land_spec, Z.bits_0.
  destruct (Z.lt_ge_cases i n) as [Hlt|Hge].
  - rewrite (Z.shiftl_spec_low _ _ _ Hlt). apply andb_false_r.
  - destruct (Z.eq_dec x 0) as [->|Hx0].
    + rewrite Z.bits_0. reflexivity.
    + rewrite (Z.bits_above_log2 x i); [reflexivity|lia|].
      apply Z.lt_le_trans with n; [|exact Hge].
      apply Z.log2_lt_pow2; lia.
Qed.

(** The word [Uint32] reads, as a sum. *)
Lemma Uint32_value (b0 b1 b2 b3 : byte) (rest : list byte) :
  Uint32 (b0 :: b1 :: b2 :: b3 :: rest)
  = Some (byte_val b0 + 2 ^ 8 * byte_val b1 + 2 ^ 16 * byte_val b2
          + 2 ^ 24 * byte_val b3).
Proof.
  pose proof (byte_val_range b0). pose proof (byte_val_range b1).
  pose proof (byte_val_range b2). pose proof (byte_val_range b3).
  unfold Uint32. f_equal.
  rewrite (lor_shiftl_add (byte_val b0) (byte_val b1) 8) by lia.
  rewrite (lor_shiftl_add _ (byte_val b2) 16) by lia.
  rewrite (lor_shiftl_add _ (byte_val b3) 24) by lia.
  lia.
Qed.

(** ** UNCOMPRESSED_LENGTH *)

Section UncompressedLength.

Context {rnd : RandSource} {Row : Type}.

(** C5. When the argument of UNCOMPRESSED_LENGTH evaluates to a string [x]
    of one to four bytes, the evaluator returns the integer 0, not NULL and
    with no error, and the corrupted-data warning [errZlibZData] is appended
    to the warnings of the statement: the very range on which UNCOMPRESS
    returns NULL. *)
Theorem uncompressed_length_corrupted_is_zero :
  forall (a : Expression) (row : Row) (w w' : World) (x : gostring),
    EvalString a row w = Done (x, false, None) w' ->
    1 <= len x <= 4 ->
    builtinUncompressedLengthSig_evalInt [a] row w
    = Done (0, false, None)
           {| warnings := warnings w' ++ [errZlibZData];
              entropy := entropy w' |}.
Proof.
  intros a row w w' x E Hx.
  unfold builtinUncompressedLengthSig_evalInt.
  read_arg E. simpl. ztests. reflexivity.
Qed.

(** C10. When the argument of UNCOMPRESSED_LENGTH evaluates to a payload of
    more than four bytes, the evaluator returns the unsigned 32-bit number its
    first four bytes hold in little-endian order, not NULL, with no error,
    and leaves the warnings as the argument left them.  Nothing is inflated:
    the bytes after the prefix do not enter the result, and the evaluator
    does not depend on the compression library at all. *)
Theorem uncompressed_length_reads_prefix :
  forall (a : Expression) (row : Row) (w w' : World)
         (b0 b1 b2 b3 b4 : byte) (rest : list byte),
    EvalString a row w
    = Done (b0 :: b1 :: b2 :: b3 :: b4 :: rest, false, None) w' ->
    let n := byte_val b0 + 2 ^ 8 * byte_val b1 + 2 ^ 16 * byte_val b2
             + 2 ^ 24 * byte_val b3 in
    builtinUncompressedLengthSig_evalInt [a] row w = Done (n, false, None) w'
    /\ 0 <= n < 2 ^ 32.
Proof.
  intros a row w w' b0 b1 b2 b3 b4 rest E n. split.
  - unfold builtinUncompressedLengthSig_evalInt.
    read_arg E. unfold slice. ztests. simpl.
    rewrite !bind_ret. rewrite Uint32_value. reflexivity.
  - pose proof (byte_val_range b0). pose proof (byte_val_range b1).
    pose proof (byte_val_range b2). pose proof (byte_val_range b3).
    subst n. lia.
Qed.

End UncompressedLength.

(** ** UNCOMPRESS on short payloads *)

Section UncompressShort.

Context {rnd : RandSource} {Row : Type} {zl : Zlib}.

(** C4. When the argument of UNCOMPRESS evaluates to a string [x] of one to
    four bytes, the evaluator returns NULL with no error and appends exactly
    one warning, [errZlibZData], to the warnings of the statement; when it
    evaluates to the empty string, the evaluator returns the empty string,
    not NULL, and appends nothing. *)
Theorem uncompress_short_payload :
  forall (a : Expression) (row : Row) (w w' : World) (x : gostring),
    EvalString a row w = Done (x, false, None) w' ->
    (1 <= len x <= 4 ->
     builtinUncompressSig_evalString [a] row w
     = Done ([], true, None)
            {| warnings := warnings w' ++ [errZlibZData];
               entropy := entropy w' |})
    /\ (x = [] ->
        builtinUncompressSig_evalString [a] row w = Done ([], false, None) w').
Proof.
  intros a row w w' x E. split.
  - intros Hx. unfold builtinUncompressSig_evalString.
    read_arg E. simpl. ztests. reflexivity.
  - intros ->. unfold builtinUncompressSig_evalString.
    read_arg E. reflexivity.
Qed.

End UncompressShort.

(** ** SHA2 *)

Lemma int_of_int64 (z : Z) : int64_range z -> int z = z.
Proof.
  unfold int64_range, int. intros Hz.
  rewrite Z.mod_small; lia.
Qed.

Section SHA2Lengths.

Context {rnd : RandSource} {Row : Type} {hl : HashLib}.

Lemma sha2_hasher_0_256 : sha2_hasher 0 = sha2_hasher 256.
Proof. reflexivity. Qed.

Lemma sha2_hasher_unsupported (n : Z) :
  int64_range n ->
  n <> 0 -> n <> 224 -> n <> 256 -> n <> 384 -> n <> 512 ->
  sha2_hasher n = None.
Proof.
  intros Hr H0 H224 H256 H384 H512. unfold sha2_hasher.
  rewrite (int_of_int64 n Hr).
  unfold SHA0, SHA224, SHA256, SHA384, SHA512. ztests. reflexivity.
Qed.

(** SHA2 on two arguments that are values. *)
Lemma sha2_on_values (a k : Expression) (row : Row) (w w1 w2 : World)
    (s : gostring) (n : Z) :
  EvalString a row w = Done (s, false, None) w1 ->
  EvalInt k row w1 = Done (n, false, None) w2 ->
  builtinSHA2Sig_evalString [a; k] row w
  = match sha2_hasher n with
    | None => ret ([], true, None)
    | Some hasher =>
      let '(hasher, (_, err)) := Hash_Write hasher s in
      if notnil err then ret ([], true, Trace err)
      else ret (Sprintf_x (Hash_Sum hasher []), false, None)
    end w2.
Proof.
  intros Ea Ek. unfold builtinSHA2Sig_evalString.
  read_arg Ea. is_value. read_arg2 Ek. is_value. reflexivity.
Qed.

(** C6. Let the first argument of SHA2 evaluate to a string and the second
    to the 64-bit integer [n].  If [n] is 0, the evaluation is the one SHA2
    makes when the second argument is 256 instead.  If [n] is none of 0, 224,
    256, 384 and 512, the evaluator returns NULL with no error, in the world
    the arguments left: no warning is appended. *)
Theorem sha2_hash_length :
  forall (a k : Expression) (row : Row) (w w1 w2 : World) (s : gostring)
         (n : Z),
    EvalString a row w = Done (s, false, None) w1 ->
    EvalInt k row w1 = Done (n, false, None) w2 ->
    int64_range n ->
    (n = 0 ->
     forall k256 : Expression,
       EvalInt k256 row w1 = Done (256, false, None) w2 ->
       builtinSHA2Sig_evalString [a; k] row w
       = builtinSHA2Sig_evalString [a; k256] row w)
    /\ (n <> 0 -> n <> 224 -> n <> 256 -> n <> 384 -> n <> 512 ->
        builtinSHA2Sig_evalString [a; k] row w = Done ([], true, None) w2).
Proof.
  intros a k row w w1 w2 s n Ea Ek Hr. split.
  - intros -> k256 Ek'.
    rewrite (sha2_on_values a k row w w1 w2 s 0 Ea Ek).
    rewrite (sha2_on_values a k256 row w w1 w2 s 256 Ea Ek').
    rewrite sha2_hasher_0_256. reflexivity.
  - intros H0 H224 H256 H384 H512.
    rewrite (sha2_on_values a k row w w1 w2 s n Ea Ek).
    rewrite (sha2_hasher_unsupported n Hr H0 H224 H256 H384 H512).
    reflexivity.
Qed.

End SHA2Lengths.

(** ** RANDOM_BYTES *)

Section RandomBytes.

Context {rnd : RandSource} {Row : Type}.

Lemma make_bytes_length (n : Z) : length (make_bytes n) = Z.to_nat n.
Proof. unfold make_bytes. apply repeat_length. Qed.

(** C7. Let the argument of RANDOM_BYTES evaluate to the integer [n].
    If [n] is below 1 or above 1024 the evaluator returns the overflow error
    [ErrOverflow "length" "random_bytes"] as its error, not NULL, and appends
    no warning.  If [n] is in 1..1024 it reads the random source once: when
    the source delivers at least [n] bytes without error the result is a
    string of exactly [n] bytes, not NULL, with no error; when it delivers
    fewer without error the result is the error "fail to generate random
    bytes", not NULL; when the source fails its error is forwarded with
    NULL. *)
Theorem random_bytes_range :
  forall (a : Expression) (row : Row) (w w' : World) (n : Z),
    EvalInt a row w = Done (n, false, None) w' ->
    (n < 1 \/ n > 1024 ->
     builtinRandomBytesSig_evalString [a] row w
     = Done ([], false, Some (ErrOverflow "length" "random_bytes")) w')
    /\ (1 <= n <= 1024 ->
        forall (got : list byte) (err : option error) (st : RandState),
          rand_draw (entropy w') (Z.to_nat n) = (got, err, st) ->
          let w'' := {| warnings := warnings w'; entropy := st |} in
          (err = None -> n <= len got ->
           builtinRandomBytesSig_evalString [a] row w
           = Done (firstn (Z.to_nat n) got, false, None) w''
           /\ len (firstn (Z.to_nat n) got) = n)
          /\ (err = None -> len got < n ->
              builtinRandomBytesSig_evalString [a] row w
              = Done ([], false,
                      Some (errors_New "fail to generate random bytes")) w'')
          /\ (forall e, err = Some e ->
              builtinRandomBytesSig_evalString [a] row w
              = Done ([], true, Some (Traced e)) w'')).
Proof.
  intros a row w w' n E. split.
  - intros Hn. unfold builtinRandomBytesSig_evalString.
    rewrite (bind_Done _ (arg_head _ _ _)).
    rewrite (bind_Done _ E). cbv beta iota. is_value.
    destruct Hn; ztests; reflexivity.
  - intros Hn got err st Hdraw w''.
    assert (Hrun : forall k : list byte * Z * option error -> M (gostring * bool * option error),
               bind (rand_Read (make_bytes n)) k w'
               = k (firstn (Nat.min (length got) (Z.to_nat n)) got
                      ++ skipn (Nat.min (length got) (Z.to_nat n)) (make_bytes n),
                    Z.of_nat (Nat.min (length got) (Z.to_nat n)), err) w'').
    { intros k. unfold bind, rand_Read. rewrite make_bytes_length, Hdraw.
      reflexivity. }
    assert (Hhead : builtinRandomBytesSig_evalString [a] row w
                    = bind (rand_Read (make_bytes n))
                        (fun '(buf, n0, err) =>
                           if notnil err then ret ([], true, Trace err)
                           else if negb (n0 =? n)
                           then ret ([], false,
                                     Some (errors_New "fail to generate random bytes"))
                           else ret (buf, false, None)) w').
    { unfold builtinRandomBytesSig_evalString.
      rewrite (bind_Done _ (arg_head _ _ _)).
      rewrite (bind_Done _ E). cbv beta iota. is_value.
      ztests. reflexivity. }
    rewrite Hhead, Hrun. clear Hhead Hrun. unfold len.
    split; [|split].
    + intros -> Hgot. simpl notnil. cbv iota.
      rewrite Nat.min_r by lia. rewrite Z2Nat.id by lia.
      rewrite Z.eqb_refl. simpl negb. cbv iota.
      rewrite (skipn_all2 (make_bytes n))
        by (rewrite make_bytes_length; apply Nat.le_refl).
      rewrite app_nil_r.
      split; [reflexivity|]. rewrite length_firstn. lia.
    + intros -> Hgot. simpl notnil. cbv iota.
      rewrite Nat.min_l by lia. ztests. reflexivity.
    + intros e ->. reflexivity.
Qed.

End RandomBytes.

(** ** PASSWORD *)

Section Password.

Context {rnd : RandSource} {Row : Type} {hl : HashLib}.

(** C8. Let the argument of PASSWORD evaluate to the string [pass] (not
    NULL, no error).  If [pass] is empty the evaluator returns the empty
    string, not NULL, and appends no warning.  If it is not empty the
    evaluator appends exactly one warning, the deprecation of PASSWORD, and
    returns the password hash, which is not empty (it starts with an
    asterisk), not NULL and with no error.  In both cases the NULL flag is
    false. *)
Theorem password_result :
  forall (a : Expression) (row : Row) (w w' : World) (pass : gostring),
    EvalString a row w = Done (pass, false, None) w' ->
    (pass = [] ->
     builtinPasswordSig_evalString [a] row w = Done ([], false, None) w')
    /\ (pass <> [] ->
        builtinPasswordSig_evalString [a] row w
        = Done (EncodePassword pass, false, None)
               {| warnings :=
                    warnings w' ++ [errDeprecatedSyntaxNoReplacement "PASSWORD"];
                  entropy := entropy w' |}
        /\ EncodePassword pass
           = "*"%byte :: Sprintf_X (Sha1Hash (Sha1Hash pass))
        /\ EncodePassword pass <> []).
Proof.
  intros a row w w' pass E. split.
  - intros ->. unfold builtinPasswordSig_evalString. read_arg E. reflexivity.
  - intros Hne.
    assert (Hlen : (len pass =? 0) = false).
    { destruct (Z.eqb_spec (len pass) 0) as [e|e]; [|reflexivity].
      apply len_zero in e. contradiction. }
    assert (Henc : EncodePassword pass
                   = "*"%byte :: Sprintf_X (Sha1Hash (Sha1Hash pass))).
    { unfold EncodePassword. rewrite Hlen. reflexivity. }
    repeat split.
    + unfold builtinPasswordSig_evalString. read_arg E.
      is_value. rewrite Hlen. reflexivity.
    + exact Henc.
    + rewrite Henc. discriminate.
Qed.

End Password.

(** ** The buffer COMPRESS fills *)

Lemma byte_val_inj (a b : byte) : byte_val a = byte_val b -> a = b.
Proof.
  intros H. rewrite <- (to_byte_val a), <- (to_byte_val b), H. reflexivity.
Qed.

Lemma make_bytes_4 (n : Z) :
  4 <= n -> make_bytes n = x00 :: x00 :: x00 :: x00 :: make_bytes (n - 4).
Proof.
  intros Hn. unfold make_bytes.
  replace (Z.to_nat n) with (4 + Z.to_nat (n - 4))%nat by lia.
  reflexivity.
Qed.

Lemma make_bytes_add (n m : Z) :
  0 <= n -> 0 <= m -> make_bytes (n + m) = make_bytes n ++ make_bytes m.
Proof.
  intros Hn Hm. unfold make_bytes.
  rewrite Z2Nat.inj_add by assumption. apply repeat_app.
Qed.

Lemma len_make_bytes (n : Z) : 0 <= n -> len (make_bytes n) = n.
Proof. intros Hn. unfold len. rewrite make_bytes_length. lia. Qed.

Lemma PutUint32_head (b0 b1 b2 b3 : byte) (rest : list byte) (v : Z) :
  PutUint32 (b0 :: b1 :: b2 :: b3 :: rest) v = Some (le32 v ++ rest).
Proof.
  unfold PutUint32, index, store. ztests. simpl.
  ztests. simpl. ztests. simpl. ztests. simpl. ztests. reflexivity.
Qed.

Lemma copy_from_4 (b0 b1 b2 b3 : byte) (c zeros fill : list byte) :
  length zeros = length c ->
  copy_from (b0 :: b1 :: b2 :: b3 :: zeros ++ fill) 4 c
  = Some (b0 :: b1 :: b2 :: b3 :: c ++ fill).
Proof.
  intros Hlen. unfold copy_from, slice_from. ztests. simpl.
  unfold copy. rewrite length_app, Hlen.
  rewrite Nat.min_r by lia.
  rewrite firstn_all. rewrite <- Hlen, skipn_app, skipn_all, Nat.sub_diag.
  reflexivity.
Qed.

Lemma store_last {A : Type} (l : list A) (x y : A) :
  store (l ++ [x]) (len (l ++ [x]) - 1) y = Some (l ++ [y]).
Proof.
  unfold store. ztests.
  rewrite len_app, len_cons, len_nil.
  replace (len l + (1 + 0) - 1) with (len l) by lia.
  unfold len. rewrite Nat2Z.id.
  rewrite firstn_app, firstn_all, Nat.sub_diag. simpl firstn.
  rewrite app_nil_r.
  rewrite skipn_all2 by (rewrite length_app; simpl; lia).
  reflexivity.
Qed.

Lemma index_last {A : Type} (l : list A) (d : A) :
  l <> [] -> index l (len l - 1) = Some (last l d).
Proof.
  intros Hne. destruct (exists_last Hne) as [l' [x ->]].
  rewrite last_last. unfold index. ztests.
  rewrite len_app, len_cons, len_nil.
  replace (len l' + (1 + 0) - 1) with (len l') by lia.
  unfold len. rewrite Nat2Z.id.
  rewrite nth_error_app2 by apply Nat.le_refl.
  rewrite Nat.sub_diag. reflexivity.
Qed.

(** The bytes of [le32] are the little-endian digits of the word. *)
Lemma Uint32_le32 (v : Z) (rest : list byte) :
  0 <= v < 2 ^ 32 -> Uint32 (le32 v ++ rest) = Some v.
Proof.
  intros Hv. unfold le32. cbn [app]. rewrite Uint32_value. f_equal.
  rewrite !Z.shiftr_div_pow2 by lia.
  assert (Hb : forall z, byte_val (to_byte z) = z mod 256).
  { intros z. unfold to_byte.
    pose proof (Z.mod_pos_bound z 256 ltac:(lia)) as Hz.
    destruct (Byte.of_N (Z.to_N (z mod 256))) as [b|] eqn:E.
    - apply Byte.to_of_N in E. unfold byte_val. rewrite E. lia.
    - apply Byte.of_N_None_iff in E. lia. }
  rewrite !Hb.
  change (2 ^ 8) with 256. change (2 ^ 16) with 65536.
  change (2 ^ 24) with 16777216. change (2 ^ 32) with 4294967296 in Hv.
  Z.div_mod_to_equations. lia.
Qed.

(** ** COMPRESS *)

Section Compress.

Context {rnd : RandSource} {Row : Type} {zl : Zlib}.

(** The payload COMPRESS frames around a deflate stream [c] for a string of
    length [n]. *)
Lemma compress_frame (n : Z) (c : list byte) (w : World) :
  c <> [] ->
  bind (lift (index c (len c - 1)))
    (fun final =>
       let shouldAppendSuffix := byte_val final =? 32 in
       let resultLength :=
         if shouldAppendSuffix then 4 + len c + 1 else 4 + len c in
       let buffer := make_bytes resultLength in
       buffer <- lift (PutUint32 buffer n) ;;
       buffer <- lift (copy_from buffer 4 c) ;;
       buffer <- (if shouldAppendSuffix
                  then lift (store buffer (len buffer - 1) "."%byte)
                  else ret buffer) ;;
       ret (buffer, false, @None error)) w
  = Done (le32 n ++ c
            ++ (if byte_val (last c x00) =? 32 then ["."%byte] else []),
          false, None) w.
Proof.
  intros Hne. rewrite (index_last c x00 Hne).
  pose proof (len_nonneg c) as Hc.
  assert (Hzeros : length (make_bytes (len c)) = length c).
  { rewrite make_bytes_length. unfold len. apply Nat2Z.id. }
  change (lift (Some (last c x00))) with (@ret rnd _ (last c x00)).
  rewrite bind_ret. cbv zeta.
  destruct (byte_val (last c x00) =? 32).
  - rewrite make_bytes_4 by lia.
    replace (4 + len c + 1 - 4) with (len c + 1) by lia.
    rewrite make_bytes_add by lia.
    rewrite PutUint32_head. simpl lift. rewrite bind_ret.
    unfold le32. cbn [app].
    rewrite (copy_from_4 _ _ _ _ c _ _ Hzeros).
    simpl lift. rewrite bind_ret.
    change (make_bytes 1) with [x00].
    change (?b0 :: ?b1 :: ?b2 :: ?b3 :: c ++ [x00])
      with (([b0; b1; b2; b3] ++ c) ++ [x00]).
    rewrite store_last. simpl lift. rewrite bind_ret.
    reflexivity.
  - rewrite make_bytes_4 by lia.
    replace (4 + len c - 4) with (len c + 0) by lia.
    rewrite make_bytes_add by lia.
    rewrite PutUint32_head. simpl lift. rewrite bind_ret.
    unfold le32. cbn [app].
    rewrite (copy_from_4 _ _ _ _ c _ _ Hzeros).
    simpl lift. rewrite !bind_ret.
    change (make_bytes 0) with (@nil byte).
    reflexivity.
Qed.

(** COMPRESS on an argument that is a non-empty string. *)
Lemma compress_on_value (a : Expression) (row : Row) (w w' : World)
    (s c : list byte) :
  EvalString a row w = Done (s, false, None) w' ->
  s <> [] ->
  deflate s = (c, None) ->
  c <> [] ->
  builtinCompressSig_evalString [a] row w
  = Done (le32 (uint32 (len s)) ++ c
            ++ (if byte_val (last c x00) =? 32 then ["."%byte] else []),
          false, None) w'.
Proof.
  intros E Hs Hc Hne. unfold builtinCompressSig_evalString.
  read_arg E. is_value.
  destruct (Z.eqb_spec (len s) 0) as [e|_];
    [apply len_zero in e; contradiction|].
  rewrite Hc. cbv beta iota. simpl notnil. cbv iota zeta.
  exact (compress_frame (uint32 (len s)) c w' Hne).
Qed.

(** C3. Let the argument of COMPRESS evaluate to the string [s].  If [s] is
    empty the result is the empty string, not NULL, nothing framed.  If [s]
    is not empty and deflate gives the stream [c] for it, the result is the
    four bytes of [uint32(len(s))] in little-endian order, then [c], then
    one full stop if the last byte of [c] is a space (0x20) and nothing if it
    is not; so its length is [4 + len(c) + 1] in the first case and
    [4 + len(c)] in the second.  The four bytes are the ones the
    little-endian reader [Uint32] turns back into [uint32(len(s))]. *)
Theorem compress_wire_format :
  forall (a : Expression) (row : Row) (w w' : World) (s : gostring),
    EvalString a row w = Done (s, false, None) w' ->
    (s = [] ->
     builtinCompressSig_evalString [a] row w = Done ([], false, None) w')
    /\ (s <> [] ->
        forall c : list byte,
          deflate s = (c, None) -> c <> [] ->
          Uint32 (le32 (uint32 (len s))) = Some (uint32 (len s))
          /\ (last c x00 = " "%byte ->
           builtinCompressSig_evalString [a] row w
           = Done (le32 (uint32 (len s)) ++ c ++ ["."%byte], false, None) w'
           /\ len (le32 (uint32 (len s)) ++ c ++ ["."%byte]) = 4 + len c + 1)
          /\ (last c x00 <> " "%byte ->
              builtinCompressSig_evalString [a] row w
              = Done (le32 (uint32 (len s)) ++ c, false, None) w'
              /\ len (le32 (uint32 (len s)) ++ c) = 4 + len c)).
Proof.
  intros a row w w' s E. split.
  - intros ->. unfold builtinCompressSig_evalString. read_arg E. reflexivity.
  - intros Hs c Hc Hne.
    pose proof (compress_on_value a row w w' s c E Hs Hc Hne) as Hrun.
    split.
    { rewrite <- (app_nil_r (le32 _)). apply Uint32_le32.
      unfold uint32. apply Z.mod_pos_bound. lia. }
    split; intros Hlast.
    + rewrite Hlast in Hrun. split; [exact Hrun|].
      unfold le32. len_lia.
    + destruct (Z.eqb_spec (byte_val (last c x00)) 32) as [e|_].
      * exfalso. apply Hlast. apply byte_val_inj. exact e.
      * rewrite app_nil_r in Hrun. split; [exact Hrun|].
        unfold le32. len_lia.
Qed.

End Compress.

(** ** COMPRESS then UNCOMPRESS *)

Section RoundTrip.

Context {rnd : RandSource} {Row : Type} {zl : Zlib} {laws : ZlibLaws zl}.

(** deflate succeeds with a stream that is not empty, and inflate recovers
    the data from the stream and what may follow it. *)
Lemma inflate_deflate (data : list byte) :
  exists c : list byte,
    deflate data = (c, None) /\ c <> []
    /\ forall trailing : list byte, inflate (c ++ trailing) = (data, None).
Proof.
  destruct (zlib_round_trip data) as (w1 & w2 & Hw & Hc & Hne & Hread).
  exists (zlib_Bytes w2). unfold deflate. rewrite Hw. cbv beta iota.
  simpl notnil. cbv iota. rewrite Hc. cbv beta iota. simpl notnil. cbv iota.
  split; [reflexivity|]. split; [exact Hne|].
  intros trailing. destruct (Hread trailing) as (r & r' & Hr & Hcopy & Hclose).
  unfold inflate. rewrite Hr, Hcopy. cbv beta iota. simpl notnil. cbv iota.
  rewrite Hclose. reflexivity.
Qed.

(** C2. Whatever string [s] the argument evaluates to, the empty one
    included, UNCOMPRESS of the call COMPRESS of that argument returns [s],
    not NULL and with no error, in the world the argument left: no warning
    is appended. *)
Theorem uncompress_compress_round_trip :
  forall (a : Expression) (row : Row) (w w' : World) (s : gostring),
    EvalString a row w = Done (s, false, None) w' ->
    builtinUncompressSig_evalString
      [ScalarFunction (builtinCompressSig_evalString [a])] row w
    = Done (s, false, None) w'.
Proof.
  intros a row w w' s E.
  destruct s as [|b s'].
  - assert (Hc : builtinCompressSig_evalString [a] row w
                 = Done ([], false, None) w').
    { unfold builtinCompressSig_evalString. read_arg E. reflexivity. }
    unfold builtinUncompressSig_evalString.
    rewrite (bind_Done _ (arg_head _ _ _)).
    change (EvalString (ScalarFunction ?f) row) with (f row).
    rewrite (bind_Done _ Hc). reflexivity.
  - destruct (inflate_deflate (b :: s')) as (c & Hdef & Hne & Hinf).
    pose proof (compress_on_value a row w w' (b :: s') c E
                  ltac:(discriminate) Hdef Hne) as Hc.
    unfold builtinUncompressSig_evalString.
    rewrite (bind_Done _ (arg_head _ _ _)).
    change (EvalString (ScalarFunction ?f) row) with (f row).
    rewrite (bind_Done _ Hc). cbv beta iota. is_value.
    destruct c as [|c0 c']; [contradiction|].
    unfold le32. cbn [app]. unfold slice_from.
    ztests; simpl lift; rewrite bind_ret;
      change (skipn (Z.to_nat 4) (?b0 :: ?b1 :: ?b2 :: ?b3 :: ?l)) with l;
      change (c0 :: c' ++ ?t) with ((c0 :: c') ++ t);
      rewrite Hinf; reflexivity.
Qed.

End RoundTrip.

(** ** The key and the padded blocks of AES *)

Lemma xor_at_length (rKey : list byte) (i : nat) (k : byte) :
  length (xor_at rKey i k) = length rKey.
Proof.
  unfold xor_at. destruct (nth_error rKey i) eqn:E; [|reflexivity].
  assert (i < length rKey)%nat by (apply nth_error_Some; congruence).
  rewrite length_app. cbn [Datatypes.length].
  rewrite length_firstn, length_skipn. lia.
Qed.

Lemma DeriveKeyMySQL_length (key : list byte) (blockSize : Z) :
  length (DeriveKeyMySQL key blockSize) = Z.to_nat blockSize.
Proof.
  unfold DeriveKeyMySQL.
  enough (Hfold : forall st : list byte * nat,
             length (fst (fold_left
               (fun (st : list byte * nat) (k : byte) =>
                  let '(rKey, rIdx) := st in
                  let rIdx :=
                    if Nat.eqb rIdx (Z.to_nat blockSize) then O else rIdx in
                  (xor_at rKey rIdx k, S rIdx)) key st))
             = length (fst st)).
  { rewrite Hfold. apply make_bytes_length. }
  induction key as [|k key IH]; intros [rKey rIdx]; [reflexivity|].
  cbn [fold_left]. rewrite IH. apply xor_at_length.
Qed.

Lemma byte_eqb_refl (b : byte) : Byte.eqb b b = true.
Proof. apply Byte.byte_dec_lb. reflexivity. Qed.

Lemma forallb_repeat (b : byte) (n : nat) :
  forallb (Byte.eqb b) (repeat b n) = true.
Proof.
  induction n as [|n IH]; [reflexivity|].
  cbn [repeat forallb]. rewrite byte_eqb_refl, IH. reflexivity.
Qed.

Lemma last_repeat (b d : byte) (l : list byte) (n : nat) :
  last (l ++ repeat b (S n)) d = b.
Proof.
  replace (repeat b (S n)) with (repeat b n ++ [b]).
  - rewrite app_assoc. apply last_last.
  - change [b] with (repeat b 1). rewrite <- repeat_app.
    f_equal. lia.
Qed.

(** The count of padding bytes. *)
Lemma pad_count (data : list byte) :
  1 <= aes_BlockSize - len data mod aes_BlockSize <= 16.
Proof.
  unfold aes_BlockSize.
  pose proof (Z.mod_pos_bound (len data) 16 ltac:(lia)). lia.
Qed.

Lemma PKCS7Pad_len (data : list byte) :
  len (PKCS7Pad data aes_BlockSize) = 16 * (len data / 16 + 1).
Proof.
  pose proof (pad_count data) as Hp. unfold PKCS7Pad.
  rewrite len_app. unfold len at 2. rewrite repeat_length.
  rewrite Z2Nat.id by lia. unfold aes_BlockSize.
  pose proof (Z.div_mod (len data) 16 ltac:(lia)). lia.
Qed.

Lemma PKCS7Unpad_Pad (data : list byte) :
  PKCS7Unpad (PKCS7Pad data aes_BlockSize) aes_BlockSize = (data, None).
Proof.
  pose proof (pad_count data) as Hp.
  pose proof (PKCS7Pad_len data) as Hlen.
  pose proof (len_nonneg data) as Hd.
  assert (Hdiv : 0 <= len data / 16) by (apply Z.div_pos; lia).
  unfold PKCS7Unpad. rewrite Hlen.
  destruct (Z.eqb_spec (16 * (len data / 16 + 1)) 0) as [e|_]; [lia|].
  replace ((16 * (len data / 16 + 1)) mod aes_BlockSize) with 0
    by (unfold aes_BlockSize; rewrite Z.mul_comm, Z.mod_mul; lia).
  cbn [Z.eqb negb orb].
  set (p := aes_BlockSize - len data mod aes_BlockSize) in *.
  assert (Hlast : last (PKCS7Pad data aes_BlockSize) x00 = to_byte p).
  { unfold PKCS7Pad. fold p.
    replace (Z.to_nat p) with (S (Z.to_nat (p - 1))) by lia.
    apply last_repeat. }
  rewrite Hlast. rewrite byte_val_to_byte by lia.
  assert (Hcut : Z.to_nat (16 * (len data / 16 + 1) - p) = length data).
  { subst p. unfold aes_BlockSize.
    pose proof (Z.div_mod (len data) 16 ltac:(lia)). unfold len in *. lia. }
  rewrite Hcut. unfold PKCS7Pad. fold p.
  rewrite skipn_app, skipn_all, Nat.sub_diag. cbn [skipn app].
  rewrite forallb_repeat.
  rewrite firstn_app, firstn_all, Nat.sub_diag. cbn [firstn].
  rewrite app_nil_r.
  unfold aes_BlockSize in *. ztests. reflexivity.
Qed.

Section ECB.

Context {aes : AESCipher} {laws : AESCipherLaws aes}.

Lemma CryptBlocks_Encrypt_length (key : list byte) (n : nat) :
  length key = 16%nat ->
  forall src : list byte,
    length src = (16 * n)%nat ->
    length (CryptBlocks (aes_Encrypt key) n src) = (16 * n)%nat.
Proof.
  intros Hkey. change (Z.to_nat aes_BlockSize) with 16%nat.
  induction n as [|n IH]; intros src Hsrc; [reflexivity|].
  cbn [CryptBlocks]. change (Z.to_nat aes_BlockSize) with 16%nat.
  rewrite length_app, IH by (rewrite length_skipn; lia).
  rewrite aes_Encrypt_length by (try rewrite length_firstn; lia).
  lia.
Qed.

Lemma CryptBlocks_Decrypt_Encrypt (key : list byte) (n : nat) :
  length key = 16%nat ->
  forall src : list byte,
    length src = (16 * n)%nat ->
    CryptBlocks (aes_Decrypt key) n (CryptBlocks (aes_Encrypt key) n src)
    = src.
Proof.
  intros Hkey.
  induction n as [|n IH]; intros src Hsrc.
  - destruct src; [reflexivity|discriminate].
  - cbn [CryptBlocks]. change (Z.to_nat aes_BlockSize) with 16%nat.
    assert (Hfirst : length (firstn 16 src) = 16%nat)
      by (rewrite length_firstn; lia).
    assert (Henc : length (aes_Encrypt key (firstn 16 src)) = 16%nat)
      by (apply aes_Encrypt_length; assumption).
    rewrite firstn_app, Henc, Nat.sub_diag, firstn_O, app_nil_r.
    rewrite (firstn_all2 (aes_Encrypt key (firstn 16 src))) by lia.
    rewrite skipn_app, Henc, Nat.sub_diag, skipn_O.
    rewrite (skipn_all2 (aes_Encrypt key (firstn 16 src))) by lia.
    cbn [app].
    rewrite aes_Decrypt_Encrypt by assumption.
    rewrite IH by (rewrite length_skipn; lia).
    apply firstn_skipn.
Qed.

(** Decryption under a 16-byte key undoes encryption under it. *)
Lemma AESDecrypt_AESEncrypt (str key : list byte) :
  length key = 16%nat ->
  exists crypted : list byte,
    AESEncryptWithECB str key = (crypted, None)
    /\ AESDecryptWithECB crypted key = (str, None).
Proof.
  intros Hkey.
  assert (Hcipher : aes_NewCipher key = inl key).
  { unfold aes_NewCipher, len. rewrite Hkey. reflexivity. }
  pose proof (PKCS7Pad_len str) as Hlen.
  pose proof (len_nonneg str) as Hs.
  assert (Hdiv : 0 <= len str / 16) by (apply Z.div_pos; lia).
  set (n := Z.to_nat (len str / 16 + 1)).
  assert (Hn : length (PKCS7Pad str aes_BlockSize) = (16 * n)%nat).
  { unfold len in Hlen at 1. subst n. lia. }
  assert (Hblocks : Z.to_nat (len (PKCS7Pad str aes_BlockSize) / aes_BlockSize)
                    = n).
  { rewrite Hlen. unfold aes_BlockSize.
    rewrite Z.mul_comm, Z.div_mul by lia. reflexivity. }
  exists (CryptBlocks (aes_Encrypt key) n (PKCS7Pad str aes_BlockSize)).
  split.
  - unfold AESEncryptWithECB. rewrite Hcipher, Hblocks. reflexivity.
  - unfold AESDecryptWithECB. rewrite Hcipher.
    pose proof (CryptBlocks_Encrypt_length key n Hkey _ Hn) as Hc.
    assert (Hclen : len (CryptBlocks (aes_Encrypt key) n
                           (PKCS7Pad str aes_BlockSize))
                    = 16 * Z.of_nat n).
    { unfold len. rewrite Hc. lia. }
    rewrite Hclen. unfold aes_BlockSize at 1 2.
    rewrite (Z.mul_comm 16), Z.mod_mul, Z.div_mul by lia.
    cbn [Z.eqb negb]. rewrite Nat2Z.id.
    rewrite (CryptBlocks_Decrypt_Encrypt key n Hkey _ Hn).
    apply PKCS7Unpad_Pad.
Qed.

End ECB.

(** ** AES_ENCRYPT then AES_DECRYPT *)

Section AESRoundTrip.

Context {rnd : RandSource} {Row : Type} {aes : AESCipher}
        {laws : AESCipherLaws aes}.

(** The key both evaluators derive is a 16-byte key. *)
Lemma derived_key_length (keyStr : gostring) :
  length (DeriveKeyMySQL keyStr aes128ecbBlobkSize) = 16%nat.
Proof. apply DeriveKeyMySQL_length. Qed.

(** C9. Let the first argument evaluate to the string [s] and the key
    argument to the string [keyStr], in the call AES_ENCRYPT and again in
    the call AES_DECRYPT around it.  Then AES_DECRYPT of the call
    AES_ENCRYPT returns [s], not NULL and with no error: both derive the
    same 16-byte key by folding [keyStr] with xor, and the blocks of 128 bits
    are decrypted one by one in ECB mode. *)
Theorem aes_decrypt_encrypt_round_trip :
  forall (a k k' : Expression) (row : Row) (w w1 w2 w3 : World)
         (s keyStr : gostring),
    EvalString a row w = Done (s, false, None) w1 ->
    EvalString k row w1 = Done (keyStr, false, None) w2 ->
    EvalString k' row w2 = Done (keyStr, false, None) w3 ->
    builtinAesDecryptSig_evalString
      [ScalarFunction (builtinAesEncryptSig_evalString [a; k]); k'] row w
    = Done (s, false, None) w3.
Proof.
  intros a k k' row w w1 w2 w3 s keyStr Ea Ek Ek'.
  destruct (AESDecrypt_AESEncrypt s _ (derived_key_length keyStr))
    as (crypted & Henc & Hdec).
  assert (Hinner : builtinAesEncryptSig_evalString [a; k] row w
                   = Done (crypted, false, None) w2).
  { unfold builtinAesEncryptSig_evalString.
    read_arg Ea. is_value. read_arg2 Ek. is_value.
    rewrite Henc. reflexivity. }
  unfold builtinAesDecryptSig_evalString.
  rewrite (bind_Done _ (arg_head _ _ _)).
  change (EvalString (ScalarFunction ?f) row) with (f row).
  rewrite (bind_Done _ Hinner). cbv beta iota. is_value.
  read_arg2 Ek'. is_value.
  rewrite Hdec. reflexivity.
Qed.

End AESRoundTrip.

(** ** NULL and error propagation *)

Section Propagation.

Context {rnd : RandSource} {Row : Type} {zl : Zlib} {hl : HashLib}
        {aes : AESCipher}.

Lemma evalArg_inv (t : EvalType) (a : Expression) (row : Row) (w w' : World)
    (isNull : bool) (err : option error) :
  evalArg t a row w = Done (isNull, err) w' ->
  match t with
  | ETString => exists v, EvalString a row w = Done (v, isNull, err) w'
  | ETInt => exists v, EvalInt a row w = Done (v, isNull, err) w'
  end.
Proof.
  unfold evalArg, bind. destruct t.
  - destruct (EvalInt a row w) as [[[v n] e] w1|]; [|discriminate].
    intros H. injection H as -> -> ->. exists v. reflexivity.
  - destruct (EvalString a row w) as [[[v n] e] w1|]; [|discriminate].
    intros H. injection H as -> -> ->. exists v. reflexivity.
Qed.

Lemma failed_test (isNull : bool) (err : option error) :
  isNull = true \/ err <> None -> isNull || notnil err = true.
Proof.
  intros [->|Herr]; [reflexivity|].
  destruct err; [apply orb_true_r|contradiction].
Qed.

Lemma asString_Done (m : M (gostring * bool * option error)) (w w' : World)
    (s : gostring) (isNull : bool) (err : option error) :
  m w = Done (s, isNull, err) w' ->
  asString m w = Done (DString s, isNull, err) w'.
Proof. intros H. unfold asString. rewrite (bind_Done _ H). reflexivity. Qed.

Lemma asInt_Done (m : M (Z * bool * option error)) (w w' : World)
    (n : Z) (isNull : bool) (err : option error) :
  m w = Done (n, isNull, err) w' ->
  asInt m w = Done (DInt n, isNull, err) w'.
Proof. intros H. unfold asInt. rewrite (bind_Done _ H). reflexivity. Qed.

(** The ways the arguments of a member of the family can fail. *)
Lemma ArgsFail_cases (f : Builtin) (args : list Expression) (row : Row)
    (w w' : World) (isNull : bool) (err : option error) :
  ArgsFail row (argTypes f) args w isNull err w' ->
  isNull || notnil err = true
  /\ exists (a : Expression) (rest : list Expression),
       args = a :: rest
       /\ ((evalArg (hd ETString (argTypes f)) a row w = Done (isNull, err) w')
           \/ (exists (t : EvalType) (b : Expression) (rest' : list Expression)
                      (w1 : World),
                 argTypes f = [ETString; t] /\ rest = b :: rest'
                 /\ evalArg ETString a row w = Done (false, None) w1
                 /\ evalArg t b row w1 = Done (isNull, err) w')).
Proof.
  intros H.
  inversion H as [t ts a rest w0 n e w0' Ha Hbad
                 |t ts a rest w0 w1 n e w0' Ha Hrest]; subst.
  - split; [apply failed_test; exact Hbad|].
    exists a, rest. split; [reflexivity|]. left.
    destruct f; exact Ha.
  - inversion Hrest as [t2 ts2 b rest' w2 n2 e2 w2' Hb Hbad
                       |t2 ts2 b rest' w2 w3 n2 e2 w2' Hb Hrest2]; subst.
    + split; [apply failed_test; exact Hbad|].
      exists a, (b :: rest'). split; [reflexivity|]. right.
      exists t2, b, rest', w1.
      destruct f; try discriminate;
        match goal with
        | Heq : _ :: _ :: _ = argTypes _ |- _ =>
          cbn [argTypes] in Heq; injection Heq as -> -> ->
        end; repeat split; assumption.
    + destruct f; try discriminate;
        match goal with
        | Heq : _ :: _ :: _ = argTypes _ |- _ =>
          cbn [argTypes] in Heq; injection Heq as -> -> ->
        end; inversion Hrest2.
Qed.

(** C1, as the evaluators have it.  When, reading the arguments of a member
    of the family in order, one of them evaluates to NULL or raises an error
    (those before it having given values), the evaluator stops there and
    returns its zero value with the error forwarded through [errors.Trace],
    in the world that argument left.  The NULL flag it returns is [true] for
    AES_ENCRYPT, AES_DECRYPT, RANDOM_BYTES, COMPRESS, UNCOMPRESS and
    UNCOMPRESSED_LENGTH; it is the flag of the argument itself for MD5, SHA1
    and SHA2, so NULL for a NULL argument; and for PASSWORD it is [true]
    exactly when the argument raised an error, so a NULL argument without an
    error gives the empty string, not NULL. *)
Theorem argument_failure_result :
  forall (f : Builtin) (args : list Expression) (row : Row) (w w' : World)
         (isNull : bool) (err : option error),
    ArgsFail row (argTypes f) args w isNull err w' ->
    eval f args row w
    = Done (zero f, nullFlag f isNull err, Trace err) w'.
Proof.
  intros f args row w w' isNull err H.
  destruct (ArgsFail_cases f args row w w' isNull err H)
    as (Hfail & a & rest & -> & [Ha | (t & b & rest' & w1 & Ht & -> & Ha & Hb)]).
  - apply evalArg_inv in Ha.
    destruct f; cbn [argTypes hd] in Ha; destruct Ha as [v E];
      cbn [eval zero nullFlag];
      (apply asString_Done || apply asInt_Done);
      unfold builtinAesDecryptSig_evalString, builtinAesEncryptSig_evalString,
        builtinCompressSig_evalString, builtinMD5Sig_evalString,
        builtinPasswordSig_evalString, builtinRandomBytesSig_evalString,
        builtinSHA1Sig_evalString, builtinSHA2Sig_evalString,
        builtinUncompressSig_evalString, builtinUncompressedLengthSig_evalInt;
      read_arg E; rewrite Hfail; reflexivity.
  - apply evalArg_inv in Ha. cbv iota in Ha. destruct Ha as [v E].
    apply evalArg_inv in Hb.
    destruct f; try discriminate; cbn [argTypes] in Ht;
      injection Ht as <-; destruct Hb as [v' E'];
      cbn [eval zero nullFlag]; apply asString_Done;
      unfold builtinAesDecryptSig_evalString, builtinAesEncryptSig_evalString,
        builtinSHA2Sig_evalString;
      read_arg E; is_value; read_arg2 E'; rewrite Hfail; reflexivity.
Qed.

End Propagation.

(** ** The sample library obeys the laws *)

Lemma decode_encode (data : list byte) (final : byte) (trailing : list byte) :
  Sample.decode (Sample.encode data final ++ trailing) = Some data.
Proof.
  revert final. induction data as [|b data IH]; intros final.
  - reflexivity.
  - cbn [Sample.encode app Sample.decode].
    change (Byte.eqb x01 x01) with true. cbv iota.
    rewrite IH. reflexivity.
Qed.

Lemma encode_not_nil (data : list byte) (final : byte) :
  Sample.encode data final <> [].
Proof. destruct data; discriminate. Qed.

Lemma sample_zlib_laws : ZlibLaws Sample.zl.
Proof.
  constructor. intros data.
  exists (data, []), (data, Sample.encode data x00).
  split; [reflexivity|]. split; [reflexivity|].
  split; [apply encode_not_nil|].
  intros trailing. exists data, data.
  cbn [zlib_NewReader zlib_Bytes Sample.zl snd io_Copy zlib_Reader_Close].
  rewrite decode_encode. repeat split.
Qed.

Lemma byte_xor_involutive (a b : byte) : byte_xor (byte_xor a b) b = a.
Proof.
  unfold byte_xor.
  destruct (Byte.to_bits a) as (a0 & a1 & a2 & a3 & a4 & a5 & a6 & a7) eqn:Ea.
  destruct (Byte.to_bits b) as (b0 & b1 & b2 & b3 & b4 & b5 & b6 & b7) eqn:Eb.
  rewrite Byte.to_bits_of_bits.
  rewrite !xorb_assoc, !xorb_nilpotent, !xorb_false_r.
  rewrite <- Ea. apply Byte.of_bits_to_bits.
Qed.

Lemma xor_block_length (key block : list byte) :
  length key = length block ->
  length (Sample.xor_block key block) = length block.
Proof.
  intros H. unfold Sample.xor_block.
  rewrite length_map, length_combine. lia.
Qed.

Lemma xor_block_involutive (key block : list byte) :
  length key = length block ->
  Sample.xor_block key (Sample.xor_block key block) = block.
Proof.
  unfold Sample.xor_block. revert key.
  induction block as [|b block IH]; intros [|k key] H;
    try reflexivity; try discriminate.
  cbn [combine map fst snd]. rewrite byte_xor_involutive.
  f_equal. apply IH. injection H as H. exact H.
Qed.

Lemma sample_aes_laws : AESCipherLaws Sample.aes.
Proof.
  constructor; intros key block Hkey Hblock.
  - cbn [aes_Encrypt Sample.aes]. rewrite xor_block_length; congruence.
  - cbn [aes_Encrypt aes_Decrypt Sample.aes].
    apply xor_block_involutive. congruence.
Qed.

(** ** The theorems on examples *)

(** PASSWORD of a NULL argument is the empty string, not NULL: the NULL flag
    the evaluator returns is [err != nil]. *)
Lemma password_of_null_is_not_null :
  ArgsFail tt (argTypes PASSWORD) [Sample.null_arg] Sample.w0 true None Sample.w0
  /\ @eval Sample.rnd unit Sample.zl Sample.hl Sample.aes
       PASSWORD [Sample.null_arg] tt Sample.w0
     = Done (DString [], false, None) Sample.w0.
Proof.
  split; [|reflexivity].
  apply fail_here; [reflexivity|left; reflexivity].
Qed.

Lemma argument_failure_result_witness :
  @eval Sample.rnd unit Sample.zl Sample.hl Sample.aes
    SHA2 [Sample.string_arg ["a"%byte]; Sample.null_arg] tt Sample.w0
  = Done (DString [], true, None) Sample.w0.
Proof.
  apply (@argument_failure_result Sample.rnd unit Sample.zl Sample.hl
           Sample.aes SHA2 [Sample.string_arg ["a"%byte]; Sample.null_arg] tt
           Sample.w0 Sample.w0 true None).
  apply fail_later with (w1 := Sample.w0); [reflexivity|].
  apply fail_here; [reflexivity|left; reflexivity].
Defined.

Lemma uncompress_compress_round_trip_witness :
  @builtinUncompressSig_evalString Sample.rnd unit Sample.zl
    [ScalarFunction
       (@builtinCompressSig_evalString Sample.rnd unit Sample.zl
          [Sample.string_arg ["a"%byte; "b"%byte; " "%byte]])]
    tt Sample.w0
  = Done (["a"%byte; "b"%byte; " "%byte], false, None) Sample.w0.
Proof.
  apply (@uncompress_compress_round_trip Sample.rnd unit Sample.zl
           sample_zlib_laws).
  reflexivity.
Defined.

Lemma compress_wire_format_witness :
  @builtinCompressSig_evalString Sample.rnd unit Sample.zl
    [Sample.string_arg ["a"%byte; " "%byte]] tt Sample.w0
  = Done ([x02; x00; x00; x00; x01; "a"%byte; x01; " "%byte; x00; " "%byte;
           "."%byte], false, None) Sample.w0
  /\ @builtinCompressSig_evalString Sample.rnd unit Sample.zl
       [Sample.string_arg ["a"%byte]] tt Sample.w0
     = Done ([x01; x00; x00; x00; x01; "a"%byte; x00; "a"%byte], false, None)
            Sample.w0.
Proof.
  split.
  - refine (proj1 (proj1 (proj2 (proj2
      (@compress_wire_format Sample.rnd unit Sample.zl
         (Sample.string_arg ["a"%byte; " "%byte]) tt Sample.w0 Sample.w0
         ["a"%byte; " "%byte] eq_refl)
      _ [x01; "a"%byte; x01; " "%byte; x00; " "%byte] eq_refl _)) eq_refl));
      discriminate.
  - refine (proj1 (proj2 (proj2 (proj2
      (@compress_wire_format Sample.rnd unit Sample.zl
         (Sample.string_arg ["a"%byte]) tt Sample.w0 Sample.w0
         ["a"%byte] eq_refl)
      _ [x01; "a"%byte; x00; "a"%byte] eq_refl _)) _));
      discriminate.
Defined.

Lemma uncompress_short_payload_witness :
  @builtinUncompressSig_evalString Sample.rnd unit Sample.zl
    [Sample.string_arg [x01; x02; x03; x04]] tt Sample.w0
  = Done ([], true, None)
         (@Build_World Sample.rnd [errZlibZData] O)
  /\ @builtinUncompressSig_evalString Sample.rnd unit Sample.zl
       [Sample.string_arg []] tt Sample.w0
     = Done ([], false, None) Sample.w0.
Proof.
  split.
  - apply (proj1 (@uncompress_short_payload Sample.rnd unit Sample.zl
             (Sample.string_arg [x01; x02; x03; x04]) tt Sample.w0 Sample.w0
             [x01; x02; x03; x04] eq_refl)).
    unfold len. simpl. lia.
  - apply (proj2 (@uncompress_short_payload Sample.rnd unit Sample.zl
             (Sample.string_arg []) tt Sample.w0 Sample.w0 [] eq_refl)).
    reflexivity.
Defined.

Lemma uncompressed_length_corrupted_is_zero_witness :
  @builtinUncompressedLengthSig_evalInt Sample.rnd unit
    [Sample.string_arg [x01; x02; x03; x04]] tt Sample.w0
  = Done (0, false, None)
         (@Build_World Sample.rnd [errZlibZData] O).
Proof.
  apply (@uncompressed_length_corrupted_is_zero Sample.rnd unit
           (Sample.string_arg [x01; x02; x03; x04]) tt Sample.w0 Sample.w0
           [x01; x02; x03; x04] eq_refl).
  unfold len. simpl. lia.
Defined.

Lemma uncompressed_length_reads_prefix_witness :
  @builtinUncompressedLengthSig_evalInt Sample.rnd unit
    [Sample.string_arg [x2c; x01; x00; x00; xff; xff]] tt Sample.w0
  = Done (300, false, None) Sample.w0.
Proof.
  apply (proj1 (@uncompressed_length_reads_prefix Sample.rnd unit
           (Sample.string_arg [x2c; x01; x00; x00; xff; xff]) tt Sample.w0 Sample.w0
           x2c x01 x00 x00 xff [xff] eq_refl)).
Defined.

Lemma sha2_hash_length_witness :
  @builtinSHA2Sig_evalString Sample.rnd unit Sample.hl
    [Sample.string_arg ["a"%byte]; Sample.int_arg 1] tt Sample.w0
  = Done ([], true, None) Sample.w0
  /\ @builtinSHA2Sig_evalString Sample.rnd unit Sample.hl
       [Sample.string_arg ["a"%byte]; Sample.int_arg 0] tt Sample.w0
     = @builtinSHA2Sig_evalString Sample.rnd unit Sample.hl
         [Sample.string_arg ["a"%byte]; Sample.int_arg 256] tt Sample.w0.
Proof.
  split.
  - apply (proj2 (@sha2_hash_length Sample.rnd unit Sample.hl
             (Sample.string_arg ["a"%byte]) (Sample.int_arg 1) tt
             Sample.w0 Sample.w0 Sample.w0 ["a"%byte] 1 eq_refl eq_refl
             ltac:(unfold int64_range; lia))); lia.
  - apply (proj1 (@sha2_hash_length Sample.rnd unit Sample.hl
             (Sample.string_arg ["a"%byte]) (Sample.int_arg 0) tt
             Sample.w0 Sample.w0 Sample.w0 ["a"%byte] 0 eq_refl eq_refl
             ltac:(unfold int64_range; lia)) eq_refl (Sample.int_arg 256) eq_refl).
Defined.

Lemma random_bytes_range_witness :
  @builtinRandomBytesSig_evalString Sample.rnd unit [Sample.int_arg 1025] tt
    Sample.w0
  = Done ([], false, Some (ErrOverflow "length" "random_bytes")) Sample.w0
  /\ @builtinRandomBytesSig_evalString Sample.rnd unit [Sample.int_arg 3] tt
       Sample.w0
     = Done ([x00; x00; x00], false, None)
            (@Build_World Sample.rnd [] 1%nat).
Proof.
  split.
  - apply (proj1 (@random_bytes_range Sample.rnd unit (Sample.int_arg 1025) tt
             Sample.w0 Sample.w0 1025 eq_refl)).
    right. lia.
  - apply (proj1 (proj2 (@random_bytes_range Sample.rnd unit (Sample.int_arg 3) tt
             Sample.w0 Sample.w0 3 eq_refl) ltac:(lia)
             [x00; x00; x00] None 1%nat eq_refl) eq_refl
             ltac:(unfold len; simpl; lia)).
Defined.

Lemma password_result_witness :
  @builtinPasswordSig_evalString Sample.rnd unit Sample.hl
    [Sample.string_arg ["x"%byte]] tt Sample.w0
  = Done ("*"%byte :: Sprintf_X (@Sha1Hash Sample.hl
                                   (@Sha1Hash Sample.hl ["x"%byte])),
          false, None)
         (@Build_World Sample.rnd [errDeprecatedSyntaxNoReplacement "PASSWORD"] O).
Proof.
  apply (proj2 (@password_result Sample.rnd unit Sample.hl
           (Sample.string_arg ["x"%byte]) tt Sample.w0 Sample.w0 ["x"%byte] eq_refl)).
  discriminate.
Defined.

Lemma aes_decrypt_encrypt_round_trip_witness :
  @builtinAesDecryptSig_evalString Sample.rnd unit Sample.aes
    [ScalarFunction
       (@builtinAesEncryptSig_evalString Sample.rnd unit Sample.aes
          [Sample.string_arg ["t"%byte; "e"%byte; "x"%byte; "t"%byte];
           Sample.string_arg ["k"%byte; "e"%byte; "y"%byte]]);
     Sample.string_arg ["k"%byte; "e"%byte; "y"%byte]] tt Sample.w0
  = Done (["t"%byte; "e"%byte; "x"%byte; "t"%byte], false, None) Sample.w0.
Proof.
  apply (@aes_decrypt_encrypt_round_trip Sample.rnd unit Sample.aes
           sample_aes_laws _ _ _ tt Sample.w0 Sample.w0 Sample.w0 Sample.w0
           _ ["k"%byte; "e"%byte; "y"%byte]); reflexivity.
Defined.

(** * Further properties of the evaluators *)

(** ** Compressed payloads *)

Lemma last_app_cons {A : Type} (l : list A) (x : A) (l' : list A) (d : A) :
  last (l ++ x :: l') d = last (x :: l') d.
Proof.
  induction l as [|y l IH]; [reflexivity|].
  rewrite <- IH. destruct l; reflexivity.
Qed.

Section Payloads.

Context {rnd : RandSource} {Row : Type} {zl : Zlib}.

(** UNCOMPRESS on a payload of more than four bytes. *)
Lemma uncompress_on_long (a : Expression) (row : Row) (w w' : World)
    (p rest : list byte) :
  EvalString a row w = Done (p ++ rest, false, None) w' ->
  length p = 4%nat -> rest <> [] ->
  builtinUncompressSig_evalString [a] row w
  = (let '(bytes, err) := inflate rest in
     if notnil err
     then AppendWarning errZlibZData ;; ret ([], true, None)
     else ret (bytes, false, None)) w'.
Proof.
  intros E Hp Hrest. unfold builtinUncompressSig_evalString.
  read_arg E. is_value.
  assert (Hlen : len (p ++ rest) = 4 + len rest).
  { rewrite len_app. unfold len at 1. rewrite Hp. reflexivity. }
  assert (Hpos : 0 < len rest).
  { destruct rest; [contradiction|]. len_lia. }
  unfold slice_from. rewrite Hlen.
  ztests. simpl lift. rewrite bind_ret.
  destruct p as [|p0 [|p1 [|p2 [|p3 [|p4 p]]]]]; try discriminate.
  reflexivity.
Qed.

(** UNCOMPRESSED_LENGTH on a payload that starts with four bytes and goes
    on. *)
Lemma uncompressed_length_on_long (a : Expression) (row : Row) (w w' : World)
    (b0 b1 b2 b3 b4 : byte) (rest : list byte) :
  EvalString a row w
  = Done (b0 :: b1 :: b2 :: b3 :: b4 :: rest, false, None) w' ->
  builtinUncompressedLengthSig_evalInt [a] row w
  = Done (byte_val b0 + 2 ^ 8 * byte_val b1 + 2 ^ 16 * byte_val b2
          + 2 ^ 24 * byte_val b3, false, None) w'.
Proof.
  intros E. unfold builtinUncompressedLengthSig_evalInt.
  read_arg E. unfold slice. ztests. simpl.
  rewrite !bind_ret. rewrite Uint32_value. reflexivity.
Qed.

(** X1. UNCOMPRESSED_LENGTH of the call COMPRESS of an argument that
    evaluates to the string [s] is 0 for the empty string and, when deflate
    gives a stream for [s], [uint32(len(s))], which is [len(s)] itself below
    2^32; it is not NULL, there is no error and no warning is appended. *)
Theorem uncompressed_length_of_compress :
  forall (a : Expression) (row : Row) (w w' : World) (s : gostring),
    EvalString a row w = Done (s, false, None) w' ->
    (s = [] ->
     builtinUncompressedLengthSig_evalInt
       [ScalarFunction (builtinCompressSig_evalString [a])] row w
     = Done (0, false, None) w')
    /\ (s <> [] ->
        forall c : list byte,
          deflate s = (c, None) -> c <> [] ->
          builtinUncompressedLengthSig_evalInt
            [ScalarFunction (builtinCompressSig_evalString [a])] row w
          = Done (uint32 (len s), false, None) w'
          /\ (len s < 2 ^ 32 -> uint32 (len s) = len s)).
Proof.
  intros a row w w' s E. split.
  - intros ->.
    assert (Hc : builtinCompressSig_evalString [a] row w
                 = Done ([], false, None) w').
    { unfold builtinCompressSig_evalString. read_arg E. reflexivity. }
    unfold builtinUncompressedLengthSig_evalInt.
    rewrite (bind_Done _ (arg_head _ _ _)).
    change (EvalString (ScalarFunction ?f) row) with (f row).
    rewrite (bind_Done _ Hc). reflexivity.
  - intros Hs c Hdef Hne.
    pose proof (compress_on_value a row w w' s c E Hs Hdef Hne) as Hc.
    assert (Hv : 0 <= uint32 (len s) < 2 ^ 32)
      by (unfold uint32; apply Z.mod_pos_bound; lia).
    split.
    + destruct c as [|c0 c']; [contradiction|].
      set (v := uint32 (len s)) in *.
      pose proof (Uint32_le32 v [] Hv) as Hdec.
      rewrite app_nil_r in Hdec. unfold le32 in Hdec.
      rewrite Uint32_value in Hdec.
      assert (Hsum : byte_val (to_byte v)
                     + 2 ^ 8 * byte_val (to_byte (Z.shiftr v 8))
                     + 2 ^ 16 * byte_val (to_byte (Z.shiftr v 16))
                     + 2 ^ 24 * byte_val (to_byte (Z.shiftr v 24)) = v)
        by congruence.
      pose proof (uncompressed_length_on_long
                    (ScalarFunction (builtinCompressSig_evalString [a]))
                    row w w' (to_byte v) (to_byte (Z.shiftr v 8))
                    (to_byte (Z.shiftr v 16)) (to_byte (Z.shiftr v 24)) c0
                    (c' ++ (if byte_val (last (c0 :: c') x00) =? 32
                            then ["."%byte] else [])) Hc) as Hrun.
      rewrite Hsum in Hrun. exact Hrun.
    + intros Hlt. unfold uint32. apply Z.mod_small.
      pose proof (len_nonneg s). lia.
Qed.

(** X2. The payload COMPRESS returns for a non-empty string, when deflate
    gives a stream for it, is longer than four bytes and never ends in a
    space. *)
Theorem compress_never_ends_in_space :
  forall (a : Expression) (row : Row) (w w' : World) (s c : gostring),
    EvalString a row w = Done (s, false, None) w' ->
    s <> [] -> deflate s = (c, None) -> c <> [] ->
    exists r : gostring,
      builtinCompressSig_evalString [a] row w = Done (r, false, None) w'
      /\ 4 < len r
      /\ last r x00 <> " "%byte.
Proof.
  intros a row w w' s c E Hs Hdef Hne.
  pose proof (compress_on_value a row w w' s c E Hs Hdef Hne) as Hc.
  eexists. split; [exact Hc|].
  destruct c as [|c0 c']; [contradiction|].
  split.
  - unfold le32. destruct (byte_val (last (c0 :: c') x00) =? 32); len_lia.
  - destruct (Z.eqb_spec (byte_val (last (c0 :: c') x00)) 32) as [e|n].
    + rewrite app_assoc. rewrite last_last. discriminate.
    + rewrite app_nil_r. rewrite last_app_cons.
      intros Heq. apply n. rewrite Heq. reflexivity.
Qed.

(** X3. When deflate fails on a non-empty string, COMPRESS returns NULL and
    keeps the failure to itself: no error is returned and no warning is
    appended. *)
Theorem compress_deflate_failure_is_null :
  forall (a : Expression) (row : Row) (w w' : World) (s c : gostring)
         (e : error),
    EvalString a row w = Done (s, false, None) w' ->
    s <> [] -> deflate s = (c, Some e) ->
    builtinCompressSig_evalString [a] row w = Done ([], true, None) w'.
Proof.
  intros a row w w' s c e E Hs Hdef.
  unfold builtinCompressSig_evalString. read_arg E. is_value.
  destruct (Z.eqb_spec (len s) 0) as [e0|_];
    [apply len_zero in e0; contradiction|].
  rewrite Hdef. reflexivity.
Qed.

(** X4. UNCOMPRESS never consults the length the first four bytes of a
    payload hold: two payloads that differ in those four bytes only are
    uncompressed alike. *)
Theorem uncompress_ignores_length_prefix :
  forall (a a' : Expression) (row : Row) (w w' : World)
         (p p' rest : list byte),
    EvalString a row w = Done (p ++ rest, false, None) w' ->
    EvalString a' row w = Done (p' ++ rest, false, None) w' ->
    length p = 4%nat -> length p' = 4%nat -> rest <> [] ->
    builtinUncompressSig_evalString [a] row w
    = builtinUncompressSig_evalString [a'] row w.
Proof.
  intros a a' row w w' p p' rest E E' Hp Hp' Hrest.
  rewrite (uncompress_on_long a row w w' p rest E Hp Hrest).
  rewrite (uncompress_on_long a' row w w' p' rest E' Hp' Hrest).
  reflexivity.
Qed.

(** X5. Whatever string its argument evaluates to, UNCOMPRESS neither
    panics nor returns an error: it returns either a string, not NULL, and
    leaves the warnings alone, or NULL and appends exactly one
    [errZlibZData] warning. *)
Theorem uncompress_value_or_warning :
  forall (a : Expression) (row : Row) (w w' : World) (x : gostring),
    EvalString a row w = Done (x, false, None) w' ->
    (exists d : gostring,
        builtinUncompressSig_evalString [a] row w = Done (d, false, None) w')
    \/ builtinUncompressSig_evalString [a] row w
       = Done ([], true, None)
              {| warnings := warnings w' ++ [errZlibZData];
                 entropy := entropy w' |}.
Proof.
  intros a row w w' x E.
  destruct x as [|b0 [|b1 [|b2 [|b3 [|b4 rest]]]]].
  1: { left. exists []. unfold builtinUncompressSig_evalString.
       read_arg E. reflexivity. }
  1-4: right; unfold builtinUncompressSig_evalString; read_arg E; is_value;
       ztests; reflexivity.
  rewrite (uncompress_on_long a row w w' [b0; b1; b2; b3] (b4 :: rest) E
             eq_refl ltac:(discriminate)).
  destruct (inflate (b4 :: rest)) as [bytes [e|]].
  - right. reflexivity.
  - left. exists bytes. reflexivity.
Qed.

(** X6. When the stream after the prefix inflates to its end but closing the
    reader fails, UNCOMPRESS drops what was inflated: it returns NULL with no
    error and appends one [errZlibZData] warning. *)
Theorem uncompress_close_failure_is_null :
  forall (a : Expression) (row : Row) (w w' : World) (p rest out : list byte)
         (r r' : zlib_Reader) (e : error),
    EvalString a row w = Done (p ++ rest, false, None) w' ->
    length p = 4%nat -> rest <> [] ->
    zlib_NewReader rest = inl r ->
    io_Copy r = (out, r', None) ->
    zlib_Reader_Close r' = Some e ->
    builtinUncompressSig_evalString [a] row w
    = Done ([], true, None)
           {| warnings := warnings w' ++ [errZlibZData];
              entropy := entropy w' |}.
Proof.
  intros a row w w' p rest out r r' e E Hp Hrest Hr Hcopy Hclose.
  rewrite (uncompress_on_long a row w w' p rest E Hp Hrest).
  unfold inflate. rewrite Hr, Hcopy. cbv beta iota.
  simpl notnil. cbv iota. rewrite Hclose. reflexivity.
Qed.

End Payloads.

Section LengthTotal.

Context {rnd : RandSource} {Row : Type}.

(** X7. Whatever string its argument evaluates to, UNCOMPRESSED_LENGTH
    neither panics nor returns NULL or an error: the result is a number from
    0 to 2^32 - 1, so of at most the ten digits [getFunction] declares, and a
    warning is appended exactly when the string has one to four bytes, in
    which case the number is 0. *)
Theorem uncompressed_length_is_total :
  forall (a : Expression) (row : Row) (w w' : World) (x : gostring),
    EvalString a row w = Done (x, false, None) w' ->
    exists (n : Z) (w'' : World),
      builtinUncompressedLengthSig_evalInt [a] row w
      = Done (n, false, None) w''
      /\ 0 <= n < 2 ^ 32 /\ n < 10 ^ 10
      /\ ((1 <= len x <= 4 /\ n = 0
           /\ w'' = {| warnings := warnings w' ++ [errZlibZData];
                       entropy := entropy w' |})
          \/ ((len x = 0 \/ 4 < len x) /\ w'' = w')).
Proof.
  intros a row w w' x E.
  destruct x as [|b0 [|b1 [|b2 [|b3 [|b4 rest]]]]].
  1: { exists 0, w'. split.
       - unfold builtinUncompressedLengthSig_evalInt. read_arg E. reflexivity.
       - repeat split; try lia. right. split; [left; reflexivity|reflexivity]. }
  1-4: eexists 0, _; split;
       [unfold builtinUncompressedLengthSig_evalInt; read_arg E; is_value;
        ztests; reflexivity
       |repeat split; try lia; left; repeat split; len_lia].
  eexists _, w'. split.
  - apply (uncompressed_length_on_long a row w w' b0 b1 b2 b3 b4 rest E).
  - pose proof (byte_val_range b0). pose proof (byte_val_range b1).
    pose proof (byte_val_range b2). pose proof (byte_val_range b3).
    repeat split; try lia.
    right. split; [right; len_lia|reflexivity].
Qed.

End LengthTotal.

(** ** AES: failures become NULL *)

Section AESFailures.

Context {rnd : RandSource} {Row : Type} {aes : AESCipher}.


(** X9. Once both arguments of AES_DECRYPT are values, the evaluator
    returns no error and appends no warning, whatever the decryption does:
    the result is NULL, with the empty string, exactly when the library
    reports an error, and the plaintext otherwise. *)
Theorem aes_decrypt_swallows_errors :
  forall (a k : Expression) (row : Row) (w w1 w2 : World)
         (cryptStr keyStr : gostring),
    EvalString a row w = Done (cryptStr, false, None) w1 ->
    EvalString k row w1 = Done (keyStr, false, None) w2 ->
    let out :=
      AESDecryptWithECB cryptStr (DeriveKeyMySQL keyStr aes128ecbBlobkSize) in
    builtinAesDecryptSig_evalString [a; k] row w
    = Done (if notnil (snd out) then [] else fst out, notnil (snd out), None)
           w2.
Proof.
  intros a k row w w1 w2 cryptStr keyStr Ea Ek out.
  unfold builtinAesDecryptSig_evalString.
  read_arg Ea. is_value. read_arg2 Ek. is_value.
  fold out. destruct out as [plainText [e|]]; reflexivity.
Qed.

End AESFailures.

(** ** Digests as hexadecimal strings *)

Lemma Sprintf_x_len (bs : list byte) : len (Sprintf_x bs) = 2 * len bs.
Proof.
  unfold Sprintf_x. induction bs as [|b bs IH]; [reflexivity|].
  cbn [flat_map]. unfold hex_of_byte at 1. cbn [app].
  rewrite !len_cons, IH. lia.
Qed.

Lemma hex_of_byte_lower (b : byte) :
  forallb is_lower_hex (hex_of_byte false b) = true.
Proof. destruct b; reflexivity. Qed.

Lemma Sprintf_x_lower (bs : list byte) :
  forallb is_lower_hex (Sprintf_x bs) = true.
Proof.
  unfold Sprintf_x. induction bs as [|b bs IH]; [reflexivity|].
  cbn [flat_map]. rewrite forallb_app, hex_of_byte_lower, IH. reflexivity.
Qed.

Section Digests.

Context {rnd : RandSource} {Row : Type} {hl : HashLib}
        {sizes : HashSizes hl}.

(** X10. For an argument that evaluates to a string, MD5 returns the
    lower-case hexadecimal digits of its MD5 sum: 32 characters, the [Flen]
    the signature declares, never NULL, with no error and no warning. *)
Theorem md5_is_32_hex_digits :
  forall (a : Expression) (row : Row) (w w' : World) (s : gostring),
    EvalString a row w = Done (s, false, None) w' ->
    builtinMD5Sig_evalString [a] row w
    = Done (Sprintf_x (md5_Sum s), false, None) w'
    /\ len (Sprintf_x (md5_Sum s)) = 32
    /\ forallb is_lower_hex (Sprintf_x (md5_Sum s)) = true
    /\ forall (verifyArgs : Builtin -> list (@Argument rnd Row) -> option error)
              (args : list (@Argument rnd Row)) (sig : Signature),
         md5FunctionClass_getFunction verifyArgs args = Some (Some sig, None) ->
         len (Sprintf_x (md5_Sum s)) = tp_Flen sig.
Proof.
  intros a row w w' s E.
  assert (Hlen : len (Sprintf_x (md5_Sum s)) = 32)
    by (rewrite Sprintf_x_len, md5_Size; reflexivity).
  split; [|split; [exact Hlen|split; [apply Sprintf_x_lower|]]].
  - unfold builtinMD5Sig_evalString. read_arg E. reflexivity.
  - intros verifyArgs args sig Hsig. rewrite Hlen.
    unfold md5FunctionClass_getFunction in Hsig.
    destruct (verifyArgs MD5 args); [discriminate|].
    injection Hsig as <-. reflexivity.
Qed.

(** X11. For an argument that evaluates to a string, SHA1 returns the 40
    lower-case hexadecimal digits of the digest, not NULL, when the hasher
    takes the bytes; when the hasher's [Write] fails it returns NULL and
    forwards that error.  No warning is appended either way. *)
Theorem sha1_digest_or_write_error :
  forall (a : Expression) (row : Row) (w w' : World) (s : gostring)
         (h : Hash) (n : Z) (err : option error),
    EvalString a row w = Done (s, false, None) w' ->
    Hash_Write sha1_New s = (h, (n, err)) ->
    (err = None ->
     builtinSHA1Sig_evalString [a] row w
     = Done (Sprintf_x (Hash_Sum h []), false, None) w'
     /\ len (Sprintf_x (Hash_Sum h [])) = 40
     /\ forallb is_lower_hex (Sprintf_x (Hash_Sum h [])) = true)
    /\ (forall e : error,
          err = Some e ->
          builtinSHA1Sig_evalString [a] row w
          = Done ([], true, Some (Traced e)) w').
Proof.
  intros a row w w' s h n err E Hw. split.
  - intros ->. split; [|split; [|apply Sprintf_x_lower]].
    + unfold builtinSHA1Sig_evalString. read_arg E. is_value.
      rewrite Hw. reflexivity.
    + rewrite Sprintf_x_len, (@sha1_Size _ _ s h (n, None) Hw). reflexivity.
  - intros e ->. unfold builtinSHA1Sig_evalString. read_arg E. is_value.
    rewrite Hw. reflexivity.
Qed.

(** The hasher SHA2 picks for a 64-bit length, and the size of its
    digest. *)
Lemma sha2_hasher_sizes (n : Z) (hasher : Hash) :
  int64_range n ->
  sha2_hasher n = Some hasher ->
  ((n = 0 \/ n = 256) /\ hasher = sha256_New)
  \/ (n = 224 /\ hasher = sha256_New224)
  \/ (n = 384 /\ hasher = sha512_New384)
  \/ (n = 512 /\ hasher = sha512_New).
Proof.
  intros Hr. unfold sha2_hasher. rewrite (int_of_int64 n Hr).
  unfold SHA0, SHA224, SHA256, SHA384, SHA512.
  destruct (Z.eqb_spec n 0) as [->|H0].
  { intros H. injection H as <-. left. split; [left|]; reflexivity. }
  destruct (Z.eqb_spec n 256) as [->|H256].
  { intros H. injection H as <-. left. split; [right|]; reflexivity. }
  cbn [orb].
  destruct (Z.eqb_spec n 224) as [->|H224].
  { intros H. injection H as <-. right. left. split; reflexivity. }
  destruct (Z.eqb_spec n 384) as [->|H384].
  { intros H. injection H as <-. right. right. left. split; reflexivity. }
  destruct (Z.eqb_spec n 512) as [->|H512]; [|discriminate].
  intros H. injection H as <-. right. right. right. split; reflexivity.
Qed.

(** X12. Whenever SHA2, on a string and a 64-bit length, returns a result
    that is not NULL, there is no error, no warning was appended, and the
    result is made of lower-case hexadecimal digits: 64 of them for the
    lengths 0 and 256, 56 for 224, 96 for 384 and 128 for 512, so never more
    than the 128 the signature declares. *)
Theorem sha2_result_length :
  forall (a k : Expression) (row : Row) (w w1 w2 w3 : World) (s r : gostring)
         (n : Z) (err : option error),
    EvalString a row w = Done (s, false, None) w1 ->
    EvalInt k row w1 = Done (n, false, None) w2 ->
    int64_range n ->
    builtinSHA2Sig_evalString [a; k] row w = Done (r, false, err) w3 ->
    err = None /\ w3 = w2
    /\ forallb is_lower_hex r = true
    /\ len r <= 128
    /\ (n = 0 \/ n = 256 -> len r = 64)
    /\ (n = 224 -> len r = 56)
    /\ (n = 384 -> len r = 96)
    /\ (n = 512 -> len r = 128).
Proof.
  intros a k row w w1 w2 w3 s r n err Ea Ek Hr Hrun.
  rewrite (sha2_on_values a k row w w1 w2 s n Ea Ek) in Hrun.
  destruct (sha2_hasher n) as [hasher|] eqn:Hh; [|discriminate].
  destruct (Hash_Write hasher s) as [h [m [e|]]] eqn:Hw; [discriminate|].
  cbv beta iota in Hrun. simpl notnil in Hrun. cbv iota in Hrun.
  unfold ret in Hrun. injection Hrun as <- <- <-.
  split; [reflexivity|]. split; [reflexivity|].
  split; [apply Sprintf_x_lower|].
  rewrite Sprintf_x_len.
  destruct (sha2_hasher_sizes n hasher Hr Hh)
    as [[Hn ->]|[[-> ->]|[[-> ->]|[-> ->]]]].
  - rewrite (@sha256_Size _ _ s h (m, None) Hw). repeat split; lia.
  - rewrite (@sha256_Size224 _ _ s h (m, None) Hw). repeat split; lia.
  - rewrite (@sha512_Size384 _ _ s h (m, None) Hw). repeat split; lia.
  - rewrite (@sha512_Size _ _ s h (m, None) Hw). repeat split; lia.
Qed.

End Digests.

(** ** RANDOM_BYTES stays within its bound *)

Section RandomBound.

Context {rnd : RandSource} {Row : Type}.

Lemma overlay_length (got buf : list byte) :
  length (firstn (Nat.min (length got) (length buf)) got
            ++ skipn (Nat.min (length got) (length buf)) buf)
  = length buf.
Proof. rewrite length_app, length_firstn, length_skipn. lia. Qed.

(** X13. Whatever its argument and the random source do, a result of
    RANDOM_BYTES that is not NULL and comes without error is a string of 1
    to 1024 bytes, as many as the argument asked for, and so never longer
    than the [Flen] of 1024 the signature declares. *)
Theorem random_bytes_within_bound :
  forall (a : Expression) (row : Row) (w w' : World) (r : gostring),
    builtinRandomBytesSig_evalString [a] row w = Done (r, false, None) w' ->
    1 <= len r <= 1024
    /\ (exists w1 : World, EvalInt a row w = Done (len r, false, None) w1)
    /\ forall (verifyArgs : Builtin -> list (@Argument rnd Row) -> option error)
              (args : list (@Argument rnd Row)) (sig : Signature),
         randomBytesFunctionClass_getFunction verifyArgs args
         = Some (Some sig, None) ->
         len r <= tp_Flen sig.
Proof.
  intros a row w w' r Hrun.
  unfold builtinRandomBytesSig_evalString in Hrun.
  rewrite (bind_Done _ (arg_head _ _ _)) in Hrun.
  unfold bind at 1 in Hrun.
  destruct (EvalInt a row w) as [[[n isNull] err] w1|] eqn:E; [|discriminate].
  destruct isNull; [discriminate|].
  destruct err as [e|]; [discriminate|].
  change (false || notnil None) with false in Hrun. cbv iota in Hrun.
  rewrite Z.gtb_ltb in Hrun.
  destruct (Z.ltb_spec n 1) as [Hlo|Hlo]; [discriminate|].
  destruct (Z.ltb_spec 1024 n) as [Hhi|Hhi]; [discriminate|].
  cbn [orb] in Hrun. unfold bind, rand_Read in Hrun.
  destruct (rand_draw (entropy w1) (length (make_bytes n)))
    as [[got e] st].
  destruct e as [e|]; [discriminate|].
  simpl notnil in Hrun. cbv iota in Hrun.
  destruct (Z.eqb_spec
              (Z.of_nat (Nat.min (length got) (length (make_bytes n)))) n)
    as [Hn|Hn]; [|discriminate].
  cbn [negb] in Hrun. unfold ret in Hrun. injection Hrun as <- <-.
  assert (Hlen : len (firstn (Nat.min (length got) (length (make_bytes n))) got
                        ++ skipn (Nat.min (length got) (length (make_bytes n)))
                             (make_bytes n)) = n).
  { unfold len. rewrite overlay_length, make_bytes_length. lia. }
  rewrite Hlen. split; [lia|]. split; [exists w1; reflexivity|].
  intros verifyArgs args sig Hsig.
  unfold randomBytesFunctionClass_getFunction in Hsig.
  destruct (verifyArgs RANDOM_BYTES args); [discriminate|].
  injection Hsig as <-. exact Hhi.
Qed.

End RandomBound.

(** ** Resolution *)

Lemma int_small (z : Z) : - 2 ^ 63 <= z < 2 ^ 63 -> int z = z.
Proof. exact (int_of_int64 z). Qed.

Section ResolutionProperties.

Context {rnd : RandSource} {Row : Type}.

Variable verifyArgs : Builtin -> list (@Argument rnd Row) -> option error.
Variable PWDHashLen : Z.
Variable MaxBlobWidth : Z.

(** X14. For every member of the family, when [verifyArgs] refuses the
    arguments [getFunction] returns no evaluator and that error, forwarded,
    without reading any argument: it does not panic even on an empty list. *)
Theorem resolution_forwards_arity_error :
  forall (f : Builtin) (args : list Argument) (e : error),
    verifyArgs f args = Some e ->
    getFunction verifyArgs PWDHashLen MaxBlobWidth f args
    = Some (None, Some (Traced e)).
Proof.
  intros f args e H.
  destruct f; cbn [getFunction];
    unfold aesDecryptFunctionClass_getFunction,
      aesEncryptFunctionClass_getFunction, compressFunctionClass_getFunction,
      md5FunctionClass_getFunction, passwordFunctionClass_getFunction,
      randomBytesFunctionClass_getFunction, sha1FunctionClass_getFunction,
      sha2FunctionClass_getFunction, uncompressFunctionClass_getFunction,
      uncompressedLengthFunctionClass_getFunction;
    rewrite H; reflexivity.
Qed.

(** X15. When the arguments are accepted, the [Flen] COMPRESS declares is
    never above [MaxBlobWidth]; for a source length from 0 to below 2^62 it
    is [srcLen + srcLen/2^12 + srcLen/2^14 + srcLen/2^25 + 13] or
    [MaxBlobWidth], whichever is smaller, so at least [srcLen + 13] unless
    capped.  The signature is marked binary. *)
Theorem compress_declared_length :
  forall (a : Argument) (rest : list Argument),
    verifyArgs COMPRESS (a :: rest) = None ->
    exists sig : Signature,
      compressFunctionClass_getFunction verifyArgs MaxBlobWidth (a :: rest)
      = Some (Some sig, None)
      /\ sig_eval sig = COMPRESS /\ tp_binary sig = true
      /\ tp_Flen sig <= MaxBlobWidth
      /\ (0 <= GetType_Flen a < 2 ^ 62 ->
          tp_Flen sig
          = Z.min (GetType_Flen a + GetType_Flen a / 2 ^ 12
                   + GetType_Flen a / 2 ^ 14 + GetType_Flen a / 2 ^ 25 + 13)
                  MaxBlobWidth
          /\ (tp_Flen sig = MaxBlobWidth \/ GetType_Flen a + 13 <= tp_Flen sig)).
Proof.
  intros a rest H.
  unfold compressFunctionClass_getFunction. rewrite H.
  change (index (a :: rest) 0) with (Some a). cbv beta iota zeta.
  eexists. split; [reflexivity|]. cbn [sig_eval tp_binary tp_Flen].
  split; [reflexivity|]. split; [reflexivity|].
  set (srcLen := GetType_Flen a).
  split.
  - rewrite Z.gtb_ltb.
    destruct (Z.ltb_spec MaxBlobWidth
                (int_add (int_add (int_add (int_add srcLen (Z.shiftr srcLen 12))
                                           (Z.shiftr srcLen 14))
                                  (Z.shiftr srcLen 25)) 13)); lia.
  - intros Hs.
    rewrite !Z.shiftr_div_pow2 by lia.
    assert (H12 : 0 <= srcLen / 2 ^ 12 /\ 2 ^ 12 * (srcLen / 2 ^ 12) <= srcLen)
      by (split; [apply Z.div_pos; lia|apply Z.mul_div_le; lia]).
    assert (H14 : 0 <= srcLen / 2 ^ 14 /\ 2 ^ 14 * (srcLen / 2 ^ 14) <= srcLen)
      by (split; [apply Z.div_pos; lia|apply Z.mul_div_le; lia]).
    assert (H25 : 0 <= srcLen / 2 ^ 25 /\ 2 ^ 25 * (srcLen / 2 ^ 25) <= srcLen)
      by (split; [apply Z.div_pos; lia|apply Z.mul_div_le; lia]).
    unfold int_add.
    rewrite (int_small (srcLen + srcLen / 2 ^ 12)) by lia.
    rewrite (int_small (srcLen + srcLen / 2 ^ 12 + srcLen / 2 ^ 14)) by lia.
    rewrite (int_small (srcLen + srcLen / 2 ^ 12 + srcLen / 2 ^ 14
                        + srcLen / 2 ^ 25)) by lia.
    rewrite (int_small (srcLen + srcLen / 2 ^ 12 + srcLen / 2 ^ 14
                        + srcLen / 2 ^ 25 + 13)) by lia.
    rewrite Z.gtb_ltb.
    destruct (Z.ltb_spec MaxBlobWidth
                (srcLen + srcLen / 2 ^ 12 + srcLen / 2 ^ 14
                 + srcLen / 2 ^ 25 + 13)); lia.
Qed.

(** X16. When the arguments are accepted, the [Flen] AES_ENCRYPT declares
    for a plaintext [Flen] from 0 to below 2^62 is [16 * (Flen/16 + 1)]: a
    multiple of the block size above [Flen] by 1 to 16, room for the padding.
    For an unspecified [Flen] of -1 it is 16, the division rounding towards
    zero.  The signature is marked binary. *)
Theorem aes_encrypt_declared_length :
  forall (a : Argument) (rest : list Argument),
    verifyArgs AES_ENCRYPT (a :: rest) = None ->
    exists sig : Signature,
      aesEncryptFunctionClass_getFunction verifyArgs (a :: rest)
      = Some (Some sig, None)
      /\ sig_eval sig = AES_ENCRYPT /\ tp_binary sig = true
      /\ (0 <= GetType_Flen a < 2 ^ 62 ->
          tp_Flen sig = 16 * (GetType_Flen a / 16 + 1)
          /\ GetType_Flen a < tp_Flen sig <= GetType_Flen a + 16)
      /\ (GetType_Flen a = -1 -> tp_Flen sig = 16).
Proof.
  intros a rest H.
  unfold aesEncryptFunctionClass_getFunction. rewrite H.
  change (index (a :: rest) 0) with (Some a). cbv beta iota.
  eexists. split; [reflexivity|]. cbn [sig_eval tp_binary tp_Flen].
  split; [reflexivity|]. split; [reflexivity|].
  unfold aes128ecbBlobkSize. split.
  - intros Hs. set (flen := GetType_Flen a) in *.
    rewrite Z.quot_div_nonneg by lia.
    assert (Hpow : 2 ^ 63 = 2 * 2 ^ 62) by reflexivity.
    pose proof (Z.div_mod flen 16 ltac:(lia)) as Hdm.
    pose proof (Z.mod_pos_bound flen 16 ltac:(lia)) as Hm.
    unfold int_mul, int_add.
    rewrite (int_small (flen / 16 + 1)) by lia.
    rewrite (int_small (16 * (flen / 16 + 1))) by lia.
    lia.
  - intros ->. reflexivity.
Qed.

End ResolutionProperties.

(** ** The further properties on examples *)

Lemma sized_sample_hash_sizes : HashSizes SizedSample.hl.
Proof.
  constructor.
  - intros data. unfold len. cbn [md5_Sum SizedSample.hl].
    rewrite repeat_length. reflexivity.
  - intros data h r H. cbn in H. injection H as <- _.
    unfold len. cbn [Hash_Sum SizedSample.hl fst snd app].
    rewrite repeat_length. reflexivity.
  - intros data h r H. cbn in H. injection H as <- _.
    unfold len. cbn [Hash_Sum SizedSample.hl fst snd app].
    rewrite repeat_length. reflexivity.
  - intros data h r H. cbn in H. injection H as <- _.
    unfold len. cbn [Hash_Sum SizedSample.hl fst snd app].
    rewrite repeat_length. reflexivity.
  - intros data h r H. cbn in H. injection H as <- _.
    unfold len. cbn [Hash_Sum SizedSample.hl fst snd app].
    rewrite repeat_length. reflexivity.
  - intros data h r H. cbn in H. injection H as <- _.
    unfold len. cbn [Hash_Sum SizedSample.hl fst snd app].
    rewrite repeat_length. reflexivity.
Qed.

Lemma uncompressed_length_of_compress_witness :
  @builtinUncompressedLengthSig_evalInt Sample.rnd unit
    [ScalarFunction
       (@builtinCompressSig_evalString Sample.rnd unit Sample.zl
          [Sample.string_arg ["a"; "b"; "c"]%byte])] tt Sample.w0
  = Done (uint32 3, false, None) Sample.w0.
Proof.
  refine (proj1 (proj2
    (@uncompressed_length_of_compress Sample.rnd unit Sample.zl
       (Sample.string_arg ["a"; "b"; "c"]%byte) tt Sample.w0 Sample.w0
       ["a"; "b"; "c"]%byte eq_refl)
    _ (Sample.encode ["a"; "b"; "c"]%byte x00) eq_refl _)); discriminate.
Defined.

Lemma compress_never_ends_in_space_witness :
  exists r : gostring,
    @builtinCompressSig_evalString Sample.rnd unit Sample.zl
      [Sample.string_arg ["a"; " "]%byte] tt Sample.w0
    = Done (r, false, None) Sample.w0
    /\ 4 < len r /\ last r x00 <> " "%byte.
Proof.
  refine (@compress_never_ends_in_space Sample.rnd unit Sample.zl
            (Sample.string_arg ["a"; " "]%byte) tt Sample.w0 Sample.w0
            ["a"; " "]%byte (Sample.encode ["a"; " "]%byte x00)
            eq_refl _ eq_refl _); discriminate.
Defined.

Lemma compress_deflate_failure_is_null_witness :
  @builtinCompressSig_evalString Sample.rnd unit SizedSample.failing_zl
    [Sample.string_arg ["a"]%byte] tt Sample.w0
  = Done ([], true, None) Sample.w0.
Proof.
  refine (@compress_deflate_failure_is_null Sample.rnd unit
            SizedSample.failing_zl (Sample.string_arg ["a"]%byte) tt
            Sample.w0 Sample.w0 ["a"]%byte []
            (Traced (External "short write")) eq_refl _ eq_refl).
  discriminate.
Defined.

Lemma uncompress_ignores_length_prefix_witness :
  @builtinUncompressSig_evalString Sample.rnd unit Sample.zl
    [Sample.string_arg ([x01; x00; x00; x00] ++ [x01; "a"%byte; x00; x00])]
    tt Sample.w0
  = @builtinUncompressSig_evalString Sample.rnd unit Sample.zl
      [Sample.string_arg ([xff; xff; xff; xff] ++ [x01; "a"%byte; x00; x00])]
      tt Sample.w0.
Proof.
  refine (@uncompress_ignores_length_prefix Sample.rnd unit Sample.zl
            (Sample.string_arg
               ([x01; x00; x00; x00] ++ [x01; "a"%byte; x00; x00]))
            (Sample.string_arg
               ([xff; xff; xff; xff] ++ [x01; "a"%byte; x00; x00]))
            tt Sample.w0 Sample.w0 [x01; x00; x00; x00]
            [xff; xff; xff; xff] [x01; "a"%byte; x00; x00]
            eq_refl eq_refl eq_refl eq_refl _).
  discriminate.
Defined.

Lemma uncompress_value_or_warning_witness :
  (exists d : gostring,
      @builtinUncompressSig_evalString Sample.rnd unit Sample.zl
        [Sample.string_arg [x07; x07; x07; x07; x07; x07]] tt Sample.w0
      = Done (d, false, None) Sample.w0)
  \/ @builtinUncompressSig_evalString Sample.rnd unit Sample.zl
       [Sample.string_arg [x07; x07; x07; x07; x07; x07]] tt Sample.w0
     = Done ([], true, None) (@Build_World Sample.rnd [errZlibZData] O).
Proof.
  exact (@uncompress_value_or_warning Sample.rnd unit Sample.zl
           (Sample.string_arg [x07; x07; x07; x07; x07; x07]) tt
           Sample.w0 Sample.w0 [x07; x07; x07; x07; x07; x07] eq_refl).
Defined.

Lemma uncompress_close_failure_is_null_witness :
  @builtinUncompressSig_evalString Sample.rnd unit SizedSample.failing_zl
    [Sample.string_arg ([x01; x00; x00; x00] ++ ["a"%byte])] tt Sample.w0
  = Done ([], true, None) (@Build_World Sample.rnd [errZlibZData] O).
Proof.
  refine (@uncompress_close_failure_is_null Sample.rnd unit
            SizedSample.failing_zl
            (Sample.string_arg ([x01; x00; x00; x00] ++ ["a"%byte]))
            tt Sample.w0 Sample.w0
            [x01; x00; x00; x00] ["a"%byte] ["a"%byte] ["a"%byte] ["a"%byte]
            (External "checksum") eq_refl eq_refl _ eq_refl eq_refl eq_refl).
  discriminate.
Defined.

Lemma uncompressed_length_is_total_witness :
  exists (n : Z) (w'' : @World Sample.rnd),
    @builtinUncompressedLengthSig_evalInt Sample.rnd unit
      [Sample.string_arg [x01; x02]] tt Sample.w0
    = Done (n, false, None) w''
    /\ 0 <= n < 2 ^ 32 /\ n < 10 ^ 10
    /\ ((1 <= len [x01; x02] <= 4 /\ n = 0
         /\ w'' = @Build_World Sample.rnd
                    (warnings Sample.w0 ++ [errZlibZData])
                    (entropy Sample.w0))
        \/ ((len [x01; x02] = 0 \/ 4 < len [x01; x02]) /\ w'' = Sample.w0)).
Proof.
  exact (@uncompressed_length_is_total Sample.rnd unit
           (Sample.string_arg [x01; x02]) tt Sample.w0 Sample.w0
           [x01; x02] eq_refl).
Defined.


Lemma aes_decrypt_swallows_errors_witness :
  @builtinAesDecryptSig_evalString Sample.rnd unit Sample.aes
    [Sample.string_arg ["a"; "b"; "c"]%byte; Sample.string_arg ["k"]%byte]
    tt Sample.w0
  = Done ([], true, None) Sample.w0.
Proof.
  exact (@aes_decrypt_swallows_errors Sample.rnd unit Sample.aes
           (Sample.string_arg ["a"; "b"; "c"]%byte)
           (Sample.string_arg ["k"]%byte) tt
           Sample.w0 Sample.w0 Sample.w0 ["a"; "b"; "c"]%byte ["k"]%byte
           eq_refl eq_refl).
Defined.

Lemma md5_is_32_hex_digits_witness :
  len (Sprintf_x (@md5_Sum SizedSample.hl ["a"; "b"; "c"]%byte)) = 32.
Proof.
  exact (proj1 (proj2
    (@md5_is_32_hex_digits Sample.rnd unit SizedSample.hl
       sized_sample_hash_sizes (Sample.string_arg ["a"; "b"; "c"]%byte) tt
       Sample.w0 Sample.w0 ["a"; "b"; "c"]%byte eq_refl))).
Defined.

Lemma sha1_digest_or_write_error_witness :
  len (Sprintf_x (@Hash_Sum SizedSample.hl (20%nat, ["a"]%byte) [])) = 40.
Proof.
  exact (proj1 (proj2 (proj1
    (@sha1_digest_or_write_error Sample.rnd unit SizedSample.hl
       sized_sample_hash_sizes (Sample.string_arg ["a"]%byte) tt
       Sample.w0 Sample.w0 ["a"]%byte (20%nat, ["a"]%byte) 1 None
       eq_refl eq_refl) eq_refl))).
Defined.

Lemma sha2_result_length_witness :
  len (Sprintf_x (@Hash_Sum SizedSample.hl (48%nat, ["a"]%byte) [])) = 96.
Proof.
  refine (proj1 (proj2 (proj2 (proj2 (proj2 (proj2 (proj2
    (@sha2_result_length Sample.rnd unit SizedSample.hl
       sized_sample_hash_sizes (Sample.string_arg ["a"]%byte)
       (Sample.int_arg 384) tt Sample.w0 Sample.w0 Sample.w0 Sample.w0
       ["a"]%byte _ 384 None eq_refl eq_refl _ eq_refl))))))) eq_refl).
  unfold int64_range. lia.
Defined.

Lemma random_bytes_within_bound_witness :
  1 <= len [x00; x00; x00] <= 1024.
Proof.
  exact (proj1
    (@random_bytes_within_bound Sample.rnd unit (Sample.int_arg 3) tt
       Sample.w0 (@Build_World Sample.rnd [] 1%nat) [x00; x00; x00]
       eq_refl)).
Defined.

Lemma resolution_forwards_arity_error_witness :
  @getFunction Sample.rnd unit SizedSample.verifyArgs 40 16777216 SHA2 []
  = Some (None, Some (Traced (External "incorrect parameter count"))).
Proof.
  exact (@resolution_forwards_arity_error Sample.rnd unit
           SizedSample.verifyArgs 40 16777216 SHA2 []
           (External "incorrect parameter count") eq_refl).
Defined.

Lemma compress_declared_length_witness :
  exists sig : Signature,
    @compressFunctionClass_getFunction Sample.rnd unit SizedSample.verifyArgs
      16777216 [SizedSample.sized_arg 8192]
    = Some (Some sig, None)
    /\ sig_eval sig = COMPRESS /\ tp_binary sig = true
    /\ tp_Flen sig <= 16777216
    /\ (0 <= 8192 < 2 ^ 62 ->
        tp_Flen sig
        = Z.min (8192 + 8192 / 2 ^ 12 + 8192 / 2 ^ 14 + 8192 / 2 ^ 25 + 13)
                16777216
        /\ (tp_Flen sig = 16777216 \/ 8192 + 13 <= tp_Flen sig)).
Proof.
  exact (@compress_declared_length Sample.rnd unit SizedSample.verifyArgs
           16777216 (SizedSample.sized_arg 8192) [] eq_refl).
Defined.

Lemma aes_encrypt_declared_length_witness :
  exists sig : Signature,
    @aesEncryptFunctionClass_getFunction Sample.rnd unit
      SizedSample.verifyArgs
      [SizedSample.sized_arg 20; SizedSample.sized_arg 5]
    = Some (Some sig, None)
    /\ sig_eval sig = AES_ENCRYPT /\ tp_binary sig = true
    /\ (0 <= 20 < 2 ^ 62 ->
        tp_Flen sig = 16 * (20 / 16 + 1) /\ 20 < tp_Flen sig <= 20 + 16)
    /\ (20 = -1 -> tp_Flen sig = 16).
Proof.
  exact (@aes_encrypt_declared_length Sample.rnd unit SizedSample.verifyArgs
           (SizedSample.sized_arg 20) [SizedSample.sized_arg 5] eq_refl).
Defined.
